(** * RSI backtesting tool: a shallow embedding of [subcode/calculation.py]
    and of [BacktestApp.run_backtest] in [subcode/app.py].

    Prices and ledger amounts are real numbers in the source (Python
    floats). Here they are exact rationals [Q]; the pandas columns that can
    hold NaN or infinities (price changes, averages, RSI, drawdowns) use the
    small type [fl] below, which adds the IEEE special values. Only the
    volatility and Sharpe ratio need a square root; they are computed in [R]. *)

From Stdlib Require Import String.
From Stdlib Require Import ZArith QArith Qround Lqa Lia List Bool.
From Stdlib Require Import Reals.
Import ListNotations.

Open Scope Q_scope.

(** ** Float-like values: finite, +inf, -inf, NaN *)

Inductive fl : Type :=
| Fin (q : Q)
| PInf
| NInf
| NaN.

Definition qlt (a b : Q) : bool := negb (Qle_bool b a).

(** [a / b] on two finite floats: division by zero gives a signed
    infinity, or NaN for [0 / 0]. *)
Definition qdiv (a b : Q) : fl :=
  if Qeq_bool b 0 then
    (if qlt 0 a then PInf else if qlt a 0 then NInf else NaN)
  else Fin (a / b).

Definition fadd (x y : fl) : fl :=
  match x, y with
  | Fin a, Fin b => Fin (a + b)
  | NaN, _ | _, NaN => NaN
  | PInf, NInf | NInf, PInf => NaN
  | PInf, _ | _, PInf => PInf
  | NInf, _ | _, NInf => NInf
  end.

Definition fneg (x : fl) : fl :=
  match x with
  | Fin a => Fin (- a)
  | PInf => NInf
  | NInf => PInf
  | NaN => NaN
  end.

Definition fsub (x y : fl) : fl := fadd x (fneg y).

Definition fdiv (x y : fl) : fl :=
  match x, y with
  | Fin a, Fin b => qdiv a b
  | Fin _, (PInf | NInf) => Fin 0
  | PInf, Fin b => if qlt b 0 then NInf else PInf
  | NInf, Fin b => if qlt b 0 then PInf else NInf
  | _, _ => NaN
  end.

(** Comparisons of a float with a (finite) threshold; NaN compares false. *)
Definition fgt (x : fl) (q : Q) : bool :=
  match x with Fin a => qlt q a | PInf => true | _ => false end.
Definition flt (x : fl) (q : Q) : bool :=
  match x with Fin a => qlt a q | NInf => true | _ => false end.
Definition fge (x : fl) (q : Q) : bool :=
  match x with Fin a => Qle_bool q a | PInf => true | _ => false end.
Definition fle (x : fl) (q : Q) : bool :=
  match x with Fin a => Qle_bool a q | NInf => true | _ => false end.

Definition is_nan (x : fl) : bool := match x with NaN => true | _ => false end.

(** [Series.fillna(v)] on one value. *)
Definition fillna (v : Q) (x : fl) : fl := match x with NaN => Fin v | _ => x end.

(** [Series.where(cond, other)] on one value: keep it where [cond] holds. *)
Definition where_ (cond : fl -> bool) (other : Q) (x : fl) : fl :=
  if cond x then x else Fin other.

Fixpoint zipWith {A B C : Type} (f : A -> B -> C) (l1 : list A) (l2 : list B)
  : list C :=
  match l1, l2 with
  | a :: l1', b :: l2' => f a b :: zipWith f l1' l2'
  | _, _ => []
  end.

(** [Series.shift(1)]: NaN first, everything moves one step later. *)
Definition shift1 (l : list fl) : list fl :=
  match l with [] => [] | _ => NaN :: removelast l end.

(** ** [calculate_rsi] *)

Fixpoint diff_from (prev : Q) (l : list Q) : list fl :=
  match l with
  | [] => []
  | c :: l' => Fin (c - prev) :: diff_from c l'
  end.

(** [data['Close'].diff()] *)
Definition diff (closes : list Q) : list fl :=
  match closes with
  | [] => []
  | c :: l' => NaN :: diff_from c l'
  end.

(** [(delta.where(delta > 0, 0)).fillna(0)] *)
Definition gain_col (closes : list Q) : list fl :=
  map (fun d => fillna 0 (where_ (fun d => fgt d 0) 0 d)) (diff closes).

(** [(-delta.where(delta < 0, 0)).fillna(0)] *)
Definition loss_col (closes : list Q) : list fl :=
  map (fun d => fillna 0 (fneg (where_ (fun d => flt d 0) 0 d))) (diff closes).

Definition fsum (xs : list fl) : fl := fold_right fadd (Fin 0) xs.

(** Mean of one window, skipping NaN, with [min_periods=1]. *)
Definition window_mean (w : list fl) : fl :=
  let xs := filter (fun x => negb (is_nan x)) w in
  if (length xs =? 0)%nat then NaN
  else fdiv (fsum xs) (Fin (inject_Z (Z.of_nat (length xs)))).

(** The trailing window of size [period] ending at index [i]. *)
Definition window (period i : nat) (l : list fl) : list fl :=
  skipn (S i - period) (firstn (S i) l).

(** [s.rolling(window=period, min_periods=1).mean()] *)
Definition rolling_mean (period : nat) (l : list fl) : list fl :=
  map (fun i => window_mean (window period i l)) (seq 0 (length l)).

Definition avg_gain (closes : list Q) (period : nat) : list fl :=
  rolling_mean period (gain_col closes).
Definition avg_loss (closes : list Q) (period : nat) : list fl :=
  rolling_mean period (loss_col closes).

(** [100 - (100 / (1 + rs))] followed by [fillna(50)], for [rs = g / l]. *)
Definition rsi_value (g l : fl) : fl :=
  fillna 50 (fsub (Fin 100) (fdiv (Fin 100) (fadd (Fin 1) (fdiv g l)))).

(** The [RSI] column added by [calculate_rsi(data, period)]. *)
Definition calculate_rsi (closes : list Q) (period : nat) : list fl :=
  zipWith rsi_value (avg_gain closes period) (avg_loss closes period).

(** ** [generate_signals] *)

(** One row: start from 0, set 1 where the buy mask holds, then -1 where
    the sell mask holds ([data.loc[mask, 'Signal'] = ...], in this order). *)
Definition signal_at (rsi_overbought rsi_oversold : Q) (cur prev : fl) : Z :=
  let s0 := 0%Z in
  let s1 := if fgt cur rsi_oversold && fle prev rsi_oversold then 1%Z else s0 in
  if flt cur rsi_overbought && fge prev rsi_overbought then (-1)%Z else s1.

(** The [Signal] column added by [generate_signals(data, ob, os)]. *)
Definition generate_signals (rsi : list fl) (rsi_overbought rsi_oversold : Q)
  : list Z :=
  zipWith (signal_at rsi_overbought rsi_oversold) rsi (shift1 rsi).

Example signals_small :
  generate_signals (calculate_rsi [100; 90; 95] 14) 70 30 = [0; 0; 1]%Z.
Proof. vm_compute. reflexivity. Qed.

(** ** [backtest_strategy] *)

(** One row of the data frame as the simulator reads it. *)
Record row : Type := mkRow { close : Q; signal : Z }.

(** The loop variables of [backtest_strategy]. *)
Record ledger : Type := mkLedger {
  cash : Q;
  holdings : Z;
  total_fees : Q;
  positions : list Z;
  portfolio_values : list Q;
  trades : list Z;
  daily_returns : list Q;
  prev_portfolio_value : Q
}.

Definition init_ledger (initial_capital : Q) : ledger :=
  mkLedger initial_capital 0 0 [] [] [] [] initial_capital.

(** [int(cash // price)]: floor division, which raises on a zero price. *)
Definition py_floordiv (a b : Q) : option Z :=
  if Qeq_bool b 0 then None else Some (Qfloor (a / b)).

(** One iteration of the [for i in range(len(data))] loop; [None] is a
    raised exception. *)
Definition step (fee_percentage : Q) (s : ledger) (r : row) : option ledger :=
  let price := close r in
  let sig := signal r in
  let after :=
    if (sig =? 1)%Z && (holdings s =? 0)%Z then
      match py_floordiv (cash s) price with
      | None => None
      | Some shares =>
          if (0 <? shares)%Z then
            let fee := inject_Z shares * price * fee_percentage in
            Some (cash s - (inject_Z shares * price + fee), (holdings s + shares)%Z,
                  total_fees s + fee, positions s ++ [1%Z], 1%Z)
          else Some (cash s, holdings s, total_fees s, positions s, 0%Z)
      end
    else if (sig =? -1)%Z && (0 <? holdings s)%Z then
      let fee := inject_Z (holdings s) * price * fee_percentage in
      Some (cash s + (inject_Z (holdings s) * price - fee), 0%Z,
            total_fees s + fee, positions s ++ [0%Z], (-1)%Z)
    else
      Some (cash s, holdings s, total_fees s,
            positions s ++ [last (positions s) 0%Z], 0%Z)
  in
  match after with
  | None => None
  | Some (cash', holdings', fees', positions', trade) =>
      let portfolio_value := cash' + inject_Z holdings' * price in
      let prev := prev_portfolio_value s in
      let daily_return :=
        if negb (Qeq_bool prev 0) then (portfolio_value - prev) / prev else 0 in
      Some (mkLedger cash' holdings' fees' positions'
              (portfolio_values s ++ [portfolio_value]) (trades s ++ [trade])
              (daily_returns s ++ [daily_return]) portfolio_value)
  end.

(** The whole loop. *)
Fixpoint bt_loop (fee_percentage : Q) (s : ledger) (rows : list row)
  : option ledger :=
  match rows with
  | [] => Some s
  | r :: rows' =>
      match step fee_percentage s r with
      | Some s' => bt_loop fee_percentage s' rows'
      | None => None
      end
  end.

(** The loop variables at the end of each iteration, up to a raise. *)
Fixpoint bt_trace (fee_percentage : Q) (s : ledger) (rows : list row)
  : list ledger :=
  match rows with
  | [] => []
  | r :: rows' =>
      match step fee_percentage s r with
      | Some s' => s' :: bt_trace fee_percentage s' rows'
      | None => []
      end
  end.

(** The columns [backtest_strategy] adds to its copy of the data. *)
Record bt_result : Type := mkResult {
  res_portfolio_value : list Q;
  res_total_fees : Q;
  res_positions : list Z;
  res_trades : list Z;
  res_daily_return : list Q
}.

(** [backtest_strategy(data, initial_capital, fee_percentage)]. Assigning a
    list whose length differs from the frame's raises [ValueError]. *)
Definition backtest_strategy (rows : list row) (initial_capital fee_percentage : Q)
  : option bt_result :=
  match bt_loop fee_percentage (init_ledger initial_capital) rows with
  | None => None
  | Some s =>
      let n := length rows in
      if (length (portfolio_values s) =? n)%nat
         && (length (positions s) =? n)%nat
         && (length (trades s) =? n)%nat
         && (length (daily_returns s) =? n)%nat
      then Some (mkResult (portfolio_values s) (total_fees s) (positions s)
                          (trades s) (daily_returns s))
      else None
  end.

(** ** [calculate_performance_metrics] (strategy side)

    Its buy-and-hold part is [buy_and_hold] below. *)

Definition qmax (a b : Q) : Q := if Qle_bool a b then b else a.

Fixpoint cummax_from (m : Q) (l : list Q) : list Q :=
  match l with
  | [] => []
  | v :: l' => let m' := qmax m v in m' :: cummax_from m' l'
  end.

(** [s.expanding(min_periods=1).max()] *)
Definition cummax (l : list Q) : list Q :=
  match l with [] => [] | v :: l' => v :: cummax_from v l' end.

(** [(pv - cumulative_max) / cumulative_max] *)
Definition drawdown (pvs : list Q) : list fl :=
  zipWith (fun v m => fdiv (Fin (v - m)) (Fin m)) pvs (cummax pvs).

Definition fmin2 (x y : fl) : fl :=
  match x, y with
  | NInf, _ | _, NInf => NInf
  | PInf, _ => y
  | _, PInf => x
  | Fin a, Fin b => if Qle_bool a b then x else y
  | _, _ => NaN
  end.

(** [Series.min()], skipping NaN. *)
Definition series_min (xs : list fl) : fl :=
  match filter (fun x => negb (is_nan x)) xs with
  | [] => NaN
  | x :: xs' => fold_left fmin2 xs' x
  end.

Definition sumQ (xs : list Q) : Q := fold_right Qplus 0 xs.
Definition lenQ {A : Type} (xs : list A) : Q := inject_Z (Z.of_nat (length xs)).

Definition meanQ (xs : list Q) : Q := sumQ xs / lenQ xs.

(** Sample variance ([ddof=1]) of a list with at least two entries. *)
Definition varianceQ (xs : list Q) : Q :=
  let m := meanQ xs in
  sumQ (map (fun x => (x - m) * (x - m)) xs) / (lenQ xs - 1).

(** A real number or NaN. *)
Inductive rval : Type := RFin (x : R) | RNaN.

Section Annualized.
Local Open Scope R_scope.

(** [returns.std() * np.sqrt(252)]; [std] of fewer than two values is NaN. *)
Definition volatility (xs : list Q) : rval :=
  if (length xs <? 2)%nat then RNaN
  else RFin (sqrt (Q2R (varianceQ xs)) * sqrt 252).

(** [(mean * 252 - risk_free_rate) / vol if vol != 0 else 0]. *)
Definition sharpe_ratio (xs : list Q) : rval :=
  let risk_free_rate := 1 / 100 in
  match volatility xs with
  | RNaN => RNaN
  | RFin v =>
      if Req_dec_T v 0 then RFin 0
      else RFin ((Q2R (meanQ xs) * 252 - risk_free_rate) / v)
  end.

End Annualized.

Record metrics : Type := mkMetrics {
  m_portfolio_value : Q;
  m_total_return : fl;
  m_max_drawdown : fl;
  m_volatility : rval;
  m_sharpe_ratio : rval;
  m_fees_paid : Q;
  m_number_of_trades : Z
}.

(** [iloc[-1]] on an empty column raises [IndexError]. *)
Definition calculate_performance_metrics (r : bt_result) (initial_capital : Q)
  : option metrics :=
  match rev (res_portfolio_value r) with
  | [] => None
  | final :: _ =>
      let total_return := fsub (fdiv (Fin final) (Fin initial_capital)) (Fin 1) in
      let max_drawdown := series_min (drawdown (res_portfolio_value r)) in
      let rets := res_daily_return r in
      let num_trades := fold_right Z.add 0%Z (map Z.abs (res_trades r)) in
      Some (mkMetrics final total_return max_drawdown (volatility rets)
              (sharpe_ratio rets) (res_total_fees r) num_trades)
  end.

(** ** [calculate_performance_metrics] (buy-and-hold side) *)

(** [a * b] on floats: an infinity times zero is NaN. *)
Definition fmul (x y : fl) : fl :=
  match x, y with
  | Fin a, Fin b => Fin (a * b)
  | NaN, _ | _, NaN => NaN
  | Fin a, PInf | PInf, Fin a => if qlt 0 a then PInf else if qlt a 0 then NInf else NaN
  | Fin a, NInf | NInf, Fin a => if qlt 0 a then NInf else if qlt a 0 then PInf else NaN
  | PInf, PInf | NInf, NInf => PInf
  | PInf, NInf | NInf, PInf => NInf
  end.

(** [max] of two floats as [expanding().max()] takes it, skipping NaN. *)
Definition fmax2 (x y : fl) : fl :=
  match x, y with
  | NaN, _ => y
  | _, NaN => x
  | PInf, _ | _, PInf => PInf
  | NInf, _ => y
  | _, NInf => x
  | Fin a, Fin b => Fin (qmax a b)
  end.

Fixpoint fcummax_from (m : fl) (l : list fl) : list fl :=
  match l with
  | [] => []
  | v :: l' => let m' := fmax2 m v in m' :: fcummax_from m' l'
  end.

(** [s.expanding(min_periods=1).max()] on a float column. *)
Definition fcummax (l : list fl) : list fl := fcummax_from NaN l.

(** [(s - cumulative_max) / cumulative_max] on a float column. *)
Definition fdrawdown (pvs : list fl) : list fl :=
  zipWith (fun v m => fdiv (fsub v m) m) pvs (fcummax pvs).

(** [data['Close'].pct_change()]: [Close / Close.shift(1) - 1]. *)
Definition pct_change (closes : list Q) : list fl :=
  zipWith (fun x p => fsub (fdiv (Fin x) p) (Fin 1)) closes (shift1 (map Fin closes)).

(** The column as a list of rationals, when every entry is finite. *)
Fixpoint fins (xs : list fl) : option (list Q) :=
  match xs with
  | [] => Some []
  | Fin q :: xs' => option_map (cons q) (fins xs')
  | _ => None
  end.

(** [std] and the Sharpe ratio of a float column without NaN: an infinite
    entry makes the standard deviation NaN, and [NaN != 0] selects the
    division, which is NaN again. *)
Definition fvolatility (xs : list fl) : rval :=
  match fins xs with Some qs => volatility qs | None => RNaN end.
Definition fsharpe_ratio (xs : list fl) : rval :=
  match fins xs with Some qs => sharpe_ratio qs | None => RNaN end.

Record bh_metrics : Type := mkBh {
  bh_portfolio_values : list fl;
  bh_daily_returns : list fl;
  bh_total_return : fl;
  bh_max_drawdown : fl;
  bh_volatility : rval;
  bh_sharpe_ratio : rval;
  bh_final_portfolio_value : fl
}.

(** Lines 157 to 174 of [calculate_performance_metrics] on the [Close]
    column; [Close.iloc[0]] raises on an empty frame. *)
Definition buy_and_hold (closes : list Q) (initial_capital : Q) : option bh_metrics :=
  match closes with
  | [] => None
  | c0 :: _ =>
      let pv := map (fun x => fmul (Fin initial_capital) (fdiv (Fin x) (Fin c0))) closes in
      match rev pv with
      | [] => None
      | final :: _ =>
          let total_return := fsub (fdiv final (Fin initial_capital)) (Fin 1) in
          let max_drawdown := series_min (fdrawdown pv) in
          let rets := map (fillna 0) (pct_change closes) in
          Some (mkBh pv rets total_return max_drawdown (fvolatility rets)
                  (fsharpe_ratio rets) final)
      end
  end.

(** ** [BacktestApp.run_backtest] *)

(** What the method does, in order, besides pure computation. *)
Inductive event : Type :=
| ShowError (msg : string)
| ShowInfo (msg : string)
| FetchData
| CalcRsi
| GenSignals
| RunBacktest
| CalcMetrics
| DisplayMetrics
| PlotResults.

Inductive outcome : Type :=
| Rejected (msg : string)
| NoDataAvailable
| Raised
| Displayed (m : metrics).

Section App.
Local Open Scope string_scope.

(** The [try] block: each entry is the float the text field parses to, or
    [None] when [float(...)] raises [ValueError]. *)
Definition validate (capital_entry fee_entry overbought_entry oversold_entry : option Q)
  : (Q * Q * Q * Q) + string :=
  let bad_float := "could not convert string to float" in
  match capital_entry with
  | None => inr bad_float
  | Some initial_capital =>
  if Qle_bool initial_capital 0 then inr "Starting capital must be positive." else
  match fee_entry with
  | None => inr bad_float
  | Some fee_text =>
  let fee_percentage := fee_text / 100 in
  if qlt fee_percentage 0 then inr "Fee percentage cannot be negative." else
  match overbought_entry with
  | None => inr bad_float
  | Some rsi_overbought =>
  if negb (qlt 0 rsi_overbought && qlt rsi_overbought 100)
  then inr "RSI Overbought level must be between 0 and 100." else
  match oversold_entry with
  | None => inr bad_float
  | Some rsi_oversold =>
  if negb (qlt 0 rsi_oversold && qlt rsi_oversold 100)
  then inr "RSI Oversold level must be between 0 and 100." else
  if Qle_bool rsi_overbought rsi_oversold
  then inr "RSI Oversold level must be less than RSI Overbought level."
  else inl (initial_capital, fee_percentage, rsi_overbought, rsi_oversold)
  end end end end.

(** [x >= y] on two floats; NaN compares false. *)
Definition fge2 (x y : fl) : bool :=
  match x, y with
  | NaN, _ | _, NaN => false
  | Fin a, Fin b => Qle_bool b a
  | PInf, _ => true
  | _, NInf => true
  | NInf, _ => false
  | Fin _, PInf => false
  end.

(** The same checks on the floats [float(entry.get())] returns, which
    include [nan], [inf] and [-inf]; [None] is the [ValueError] of an
    entry that does not parse. [validate] is this function on finite
    entries. *)
Definition validate_float (capital_entry fee_entry overbought_entry oversold_entry : option fl)
  : (fl * fl * fl * fl) + string :=
  let bad_float := "could not convert string to float" in
  match capital_entry with
  | None => inr bad_float
  | Some initial_capital =>
  if fle initial_capital 0 then inr "Starting capital must be positive." else
  match fee_entry with
  | None => inr bad_float
  | Some fee_text =>
  let fee_percentage := fdiv fee_text (Fin 100) in
  if flt fee_percentage 0 then inr "Fee percentage cannot be negative." else
  match overbought_entry with
  | None => inr bad_float
  | Some rsi_overbought =>
  if negb (fgt rsi_overbought 0 && flt rsi_overbought 100)
  then inr "RSI Overbought level must be between 0 and 100." else
  match oversold_entry with
  | None => inr bad_float
  | Some rsi_oversold =>
  if negb (fgt rsi_oversold 0 && flt rsi_oversold 100)
  then inr "RSI Oversold level must be between 0 and 100." else
  if fge2 rsi_oversold rsi_overbought
  then inr "RSI Oversold level must be less than RSI Overbought level."
  else inl (initial_capital, fee_percentage, rsi_overbought, rsi_oversold)
  end end end end.

(** [fetched] is the closing-price column [get_historical_data] returns
    once NaN rows are dropped. *)
Definition run_backtest (capital_entry fee_entry overbought_entry oversold_entry : option Q)
  (fetched : list Q) : outcome * list event :=
  match validate capital_entry fee_entry overbought_entry oversold_entry with
  | inr msg => (Rejected msg, [ShowError msg])
  | inl (initial_capital, fee_percentage, rsi_overbought, rsi_oversold) =>
      match fetched with
      | [] => (NoDataAvailable,
               [FetchData; ShowInfo "No data available for the selected parameters."])
      | _ =>
          let rsi := calculate_rsi fetched 14 in
          let sig := generate_signals rsi rsi_overbought rsi_oversold in
          let rows := zipWith mkRow fetched sig in
          match backtest_strategy rows initial_capital fee_percentage with
          | None => (Raised, [FetchData; CalcRsi; GenSignals; RunBacktest])
          | Some r =>
              match calculate_performance_metrics r initial_capital with
              | None => (Raised, [FetchData; CalcRsi; GenSignals; RunBacktest; CalcMetrics])
              | Some m => (Displayed m, [FetchData; CalcRsi; GenSignals; RunBacktest;
                                         CalcMetrics; DisplayMetrics; PlotResults])
              end
          end
      end
  end.

End App.

(** The data frame [run_backtest] hands to [backtest_strategy]. *)
Definition pipeline_rows (closes : list Q) (period : nat) (rsi_overbought rsi_oversold : Q)
  : list row :=
  zipWith mkRow closes
    (generate_signals (calculate_rsi closes period) rsi_overbought rsi_oversold).

(** * Properties *)

(** ** Boolean comparisons *)

Lemma qlt_true (a b : Q) : qlt a b = true <-> a < b.
Proof.
  unfold qlt. rewrite negb_true_iff. split; intro H.
  - apply Qnot_le_lt. intro Hle. apply Qle_bool_iff in Hle. congruence.
  - destruct (Qle_bool b a) eqn:E; [|reflexivity].
    apply Qle_bool_iff in E. exfalso. apply (Qlt_not_le a b); assumption.
Qed.

Lemma qlt_false (a b : Q) : qlt a b = false <-> b <= a.
Proof.
  unfold qlt. rewrite negb_false_iff. apply Qle_bool_iff.
Qed.

Lemma Qle_bool_false (a b : Q) : Qle_bool a b = false <-> b < a.
Proof.
  split; intro H.
  - apply Qnot_le_lt. intro Hle. apply Qle_bool_iff in Hle. congruence.
  - destruct (Qle_bool a b) eqn:E; [|reflexivity].
    apply Qle_bool_iff in E. exfalso. apply (Qlt_not_le b a); assumption.
Qed.

(** Turn every boolean comparison hypothesis into a proposition. *)
Ltac qbool :=
  repeat match goal with
  | H : qlt _ _ = true |- _ => apply qlt_true in H
  | H : qlt _ _ = false |- _ => apply qlt_false in H
  | H : Qle_bool _ _ = true |- _ => apply Qle_bool_iff in H
  | H : Qle_bool _ _ = false |- _ => apply Qle_bool_false in H
  | H : Qeq_bool _ _ = true |- _ => apply Qeq_bool_iff in H
  | H : (_ && _)%bool = true |- _ => apply andb_true_iff in H; destruct H
  end.

(** ** The validation of [run_backtest] (claims C6 and C7) *)

Definition invalid_config (initial_capital fee_text rsi_overbought rsi_oversold : Q) : Prop :=
  initial_capital <= 0 \/ fee_text / 100 < 0 \/
  ~ (0 < rsi_overbought /\ rsi_overbought < 100) \/
  ~ (0 < rsi_oversold /\ rsi_oversold < 100) \/
  rsi_overbought <= rsi_oversold.

(** C6: an invalid configuration is rejected with an error dialog, and
    nothing else runs: no data retrieval, no indicator, no signals, no
    simulation. *)
Theorem run_backtest_rejects_invalid
  (initial_capital fee_text rsi_overbought rsi_oversold : Q) (fetched : list Q)
  (Hbad : invalid_config initial_capital fee_text rsi_overbought rsi_oversold) :
  exists msg,
    run_backtest (Some initial_capital) (Some fee_text) (Some rsi_overbought)
      (Some rsi_oversold) fetched = (Rejected msg, [ShowError msg]).
Proof.
  unfold run_backtest, validate.
  destruct (Qle_bool initial_capital 0) eqn:E1; [eexists; reflexivity|].
  destruct (qlt (fee_text / 100) 0) eqn:E2; [eexists; reflexivity|].
  destruct (qlt 0 rsi_overbought && qlt rsi_overbought 100) eqn:E3;
    [|eexists; reflexivity].
  destruct (qlt 0 rsi_oversold && qlt rsi_oversold 100) eqn:E4;
    [|eexists; reflexivity].
  destruct (Qle_bool rsi_overbought rsi_oversold) eqn:E5; [eexists; reflexivity|].
  exfalso. simpl in *. qbool.
  destruct Hbad as [Hb|[Hb|[Hb|[Hb|Hb]]]].
  - apply (Qlt_not_le 0 initial_capital); assumption.
  - apply (Qlt_not_le (fee_text / 100) 0); assumption.
  - apply Hb; split; assumption.
  - apply Hb; split; assumption.
  - apply (Qlt_not_le rsi_oversold rsi_overbought); assumption.
Qed.

Lemma run_backtest_rejects_invalid_witness :
  invalid_config 100 1 30 70 /\
  exists msg, run_backtest (Some 100) (Some 1) (Some 30) (Some 70) [1; 2] =
              (Rejected msg, [ShowError msg]).
Proof.
  assert (H : invalid_config 100 1 30 70).
  { unfold invalid_config. right; right; right; right. vm_compute. discriminate. }
  split; [exact H | exact (run_backtest_rejects_invalid 100 1 30 70 [1; 2] H)].
Defined.

(** C7: with an accepted configuration and an empty series, the run ends
    with the informational no-data dialog right after the retrieval; the
    indicator, signals, simulation and metrics never run. *)
Theorem run_backtest_no_data
  (capital_entry fee_entry overbought_entry oversold_entry : option Q) (cfg : Q * Q * Q * Q)
  (Hok : validate capital_entry fee_entry overbought_entry oversold_entry = inl cfg) :
  run_backtest capital_entry fee_entry overbought_entry oversold_entry [] =
    (NoDataAvailable,
     [FetchData; ShowInfo "No data available for the selected parameters."%string]).
Proof.
  unfold run_backtest. rewrite Hok. destruct cfg as [[[ic fp] ob] os]. reflexivity.
Qed.

Lemma run_backtest_no_data_witness :
  validate (Some 1000) (Some 1) (Some 70) (Some 30) = inl (1000, 1 / 100, 70, 30) /\
  run_backtest (Some 1000) (Some 1) (Some 70) (Some 30) [] =
    (NoDataAvailable,
     [FetchData; ShowInfo "No data available for the selected parameters."%string]).
Proof.
  assert (H : validate (Some 1000) (Some 1) (Some 70) (Some 30) = inl (1000, 1 / 100, 70, 30))
    by reflexivity.
  split; [exact H | exact (run_backtest_no_data _ _ _ _ _ H)].
Defined.

(** ** A buy signal that cannot buy a share (claim C1) *)

(** C1: capital 50, default period 14, thresholds 70/30 and closes
    100, 90, 95. The RSI goes 50, 0, 33.3, so a buy signal fires on the
    third day, where [int(50 // 95) = 0]. The [if shares > 0] branch is
    skipped without appending to [positions], which ends one entry short,
    and [data['Positions'] = positions] raises: [backtest_strategy] does
    not return and [run_backtest] stops with the exception. *)
Theorem backtest_raises_on_unaffordable_buy :
  map signal (pipeline_rows [100; 90; 95] 14 70 30) = [0; 0; 1]%Z /\
  option_map positions (bt_loop 0 (init_ledger 50) (pipeline_rows [100; 90; 95] 14 70 30)) =
    Some [0; 0]%Z /\
  option_map (fun s => length (portfolio_values s))
    (bt_loop 0 (init_ledger 50) (pipeline_rows [100; 90; 95] 14 70 30)) = Some 3%nat /\
  backtest_strategy (pipeline_rows [100; 90; 95] 14 70 30) 50 0 = None /\
  run_backtest (Some 50) (Some 0) (Some 70) (Some 30) [100; 90; 95] =
    (Raised, [FetchData; CalcRsi; GenSignals; RunBacktest]).
Proof. vm_compute. repeat split. Qed.

(** ** Zero average loss with positive average gain (claim C4) *)

(** C4 fails on closes 1, 2: on the second day the average loss is 0, the
    average gain is 1/2, [rs = inf] and the RSI is 100, not 50. *)
Lemma rsi_zero_loss_not_neutral :
  nth_error (avg_loss [1; 2] 14) 1 = Some (Fin (0 # 2)) /\ (0 # 2) == 0 /\
  nth_error (avg_gain [1; 2] 14) 1 = Some (Fin (1 # 2)) /\
  nth_error (calculate_rsi [1; 2] 14) 1 = Some (Fin 100) /\ Fin 100 <> Fin 50.
Proof.
  vm_compute. repeat split. discriminate.
Qed.

(** ** Fees can raise the final value (claim C8) *)

(** C8 fails on closes 10, 9, 12, 5, 11, 1 with period 14, thresholds
    70/30 and capital 100. The signals are buy, sell, buy. Without fees
    the second buy takes 4 shares at 11; with a 1% fee the cash is lower
    and it takes 3. The price then falls to 1, so the zero-fee run ends
    at 4 and the fee run at 12.31. *)
Lemma fee_can_raise_final_value :
  exists r0 rf,
    backtest_strategy (pipeline_rows [10; 9; 12; 5; 11; 1] 14 70 30) 100 0 = Some r0 /\
    backtest_strategy (pipeline_rows [10; 9; 12; 5; 11; 1] 14 70 30) 100 (1 # 100) = Some rf /\
    res_trades r0 = [0; 0; 1; -1; 1; 0]%Z /\ res_trades rf = [0; 0; 1; -1; 1; 0]%Z /\
    last (res_portfolio_value r0) 0 == 4 /\
    last (res_portfolio_value rf) 0 == 1231 # 100 /\
    last (res_portfolio_value r0) 0 < last (res_portfolio_value rf) 0.
Proof.
  do 2 eexists. split; [vm_compute; reflexivity|]. split; [vm_compute; reflexivity|].
  vm_compute. repeat split; reflexivity.
Qed.

(** ** List lemmas *)

Lemma length_zipWith {A B C : Type} (f : A -> B -> C) l1 l2 :
  length (zipWith f l1 l2) = Nat.min (length l1) (length l2).
Proof.
  revert l2; induction l1 as [|a l1 IH]; intros [|b l2]; simpl; auto.
Qed.

Lemma nth_error_zipWith {A B C : Type} (f : A -> B -> C) l1 l2 n :
  nth_error (zipWith f l1 l2) n =
    match nth_error l1 n, nth_error l2 n with
    | Some a, Some b => Some (f a b)
    | _, _ => None
    end.
Proof.
  revert l2 n; induction l1 as [|a l1 IH]; intros [|b l2] [|n]; simpl; auto.
  destruct (nth_error l1 n); reflexivity.
Qed.

Lemma nth_error_removelast {A : Type} (l : list A) n :
  (S n < length l)%nat -> nth_error (removelast l) n = nth_error l n.
Proof.
  revert n; induction l as [|a l IH]; intros n Hn; simpl in *; [lia|].
  destruct l as [|b l]; simpl in *; [lia|].
  destruct n as [|n]; [reflexivity|]. apply IH. simpl. lia.
Qed.

Lemma nth_error_shift1 (l : list fl) n :
  (n < length l)%nat ->
  nth_error (shift1 l) n = match n with O => Some NaN | S m => nth_error l m end.
Proof.
  intros Hn. destruct l as [|a l]; simpl in *; [lia|].
  destruct n as [|m]; [reflexivity|]. simpl.
  apply (nth_error_removelast (a :: l)). simpl. lia.
Qed.

(** ** [generate_signals] (claim C3) *)

Lemma signal_at_first (rsi_overbought rsi_oversold : Q) (cur : fl) :
  signal_at rsi_overbought rsi_oversold cur NaN = 0%Z.
Proof.
  unfold signal_at. simpl. rewrite !andb_false_r. reflexivity.
Qed.

Lemma signal_at_fin (ob os a b : Q) (Hord : os < ob) :
  let s := signal_at ob os (Fin a) (Fin b) in
  (s = 1%Z <-> os < a /\ b <= os) /\
  (s = (-1)%Z <-> a < ob /\ ob <= b) /\
  (s = 0%Z <-> ~ (os < a /\ b <= os) /\ ~ (a < ob /\ ob <= b)) /\
  ~ ((os < a /\ b <= os) /\ (a < ob /\ ob <= b)).
Proof.
  unfold signal_at; simpl.
  destruct (qlt a ob) eqn:E1, (Qle_bool ob b) eqn:E2,
           (qlt os a) eqn:E3, (Qle_bool b os) eqn:E4; simpl; qbool;
    repeat split; intros; try discriminate; try reflexivity;
    intuition (try lra).
Qed.

(** C3: with [0 < OS < OB < 100], on any indicator series the signal at a
    step is Buy exactly on an upward crossing of OS, Sell exactly on a
    downward crossing of OB, Hold otherwise; step 0 is always Hold and no
    step satisfies both crossing conditions. *)
Theorem generate_signals_crossings (I : list Q) (rsi_overbought rsi_oversold : Q)
  (Hos : 0 < rsi_oversold) (Hord : rsi_oversold < rsi_overbought)
  (Hob : rsi_overbought < 100) (t : nat) (Ht : (t < length I)%nat) :
  let s := nth t (generate_signals (map Fin I) rsi_overbought rsi_oversold) 0%Z in
  let buy := (0 < t)%nat /\ rsi_oversold < nth t I 0 /\ nth (t - 1) I 0 <= rsi_oversold in
  let sell := (0 < t)%nat /\ nth t I 0 < rsi_overbought /\ rsi_overbought <= nth (t - 1) I 0 in
  (s = 1%Z <-> buy) /\ (s = (-1)%Z <-> sell) /\ (s = 0%Z <-> ~ buy /\ ~ sell) /\
  (t = 0%nat -> s = 0%Z) /\ ~ (buy /\ sell).
Proof.
  intros s buy sell.
  assert (Hs : nth_error (generate_signals (map Fin I) rsi_overbought rsi_oversold) t =
               Some (signal_at rsi_overbought rsi_oversold (Fin (nth t I 0))
                       (match t with O => NaN | S m => Fin (nth m I 0) end))).
  { unfold generate_signals. rewrite nth_error_zipWith.
    rewrite (nth_error_nth' (map Fin I) (Fin 0)) by (rewrite length_map; lia).
    rewrite map_nth.
    rewrite nth_error_shift1 by (rewrite length_map; lia).
    destruct t as [|m]; [reflexivity|].
    rewrite (nth_error_nth' (map Fin I) (Fin 0)) by (rewrite length_map; lia).
    rewrite map_nth. reflexivity. }
  apply (nth_error_nth _ _ 0%Z) in Hs. unfold s. rewrite Hs.
  destruct t as [|m].
  - rewrite signal_at_first. unfold buy, sell.
    repeat split; intros; try discriminate; try reflexivity; try lia;
      intuition lia.
  - destruct (signal_at_fin rsi_overbought rsi_oversold (nth (S m) I 0) (nth m I 0) Hord)
      as [H1 [H2 [H3 H4]]].
    unfold buy, sell. replace (S m - 1)%nat with m by lia.
    refine (conj (conj _ _) (conj (conj _ _) (conj (conj _ _) (conj _ _)))).
    + intro E. destruct (proj1 H1 E). split; [lia|auto].
    + intros [_ HH]. apply H1. exact HH.
    + intro E. destruct (proj1 H2 E). split; [lia|auto].
    + intros [_ HH]. apply H2. exact HH.
    + intro E. destruct (proj1 H3 E) as [Nb Ns].
      split; intros [_ HH]; [apply Nb | apply Ns]; exact HH.
    + intros [Hb Hsl]. apply H3. split; intro HH; [apply Hb | apply Hsl]; split; auto; lia.
    + intros E. discriminate.
    + intros [[_ Hb] [_ Hsl]]. apply H4. split; assumption.
Qed.

Lemma generate_signals_crossings_witness :
  let I := [50; 20; 40; 80; 60] in
  (0 < 30 /\ 30 < 70 /\ 70 < 100 /\ (2 < length I)%nat) /\
  nth 2 (generate_signals (map Fin I) 70 30) 0%Z = 1%Z /\
  (nth 2 (generate_signals (map Fin I) 70 30) 0%Z = 1%Z <->
   (0 < 2)%nat /\ 30 < nth 2 I 0 /\ nth (2 - 1) I 0 <= 30).
Proof.
  intros I.
  assert (Hc : 0 < 30 /\ 30 < 70 /\ 70 < 100 /\ (2 < length I)%nat).
  { repeat split; unfold I; simpl; try lia; reflexivity. }
  destruct Hc as (H1 & H2 & H3 & H4).
  split; [repeat split; assumption|].
  split; [vm_compute; reflexivity|].
  exact (proj1 (generate_signals_crossings I 70 30 H1 H2 H3 2 H4)).
Defined.

(** ** One iteration of the simulation loop *)

Lemma py_floordiv_some (a b : Q) (n : Z) :
  py_floordiv a b = Some n -> ~ b == 0 /\ n = Qfloor (a / b).
Proof.
  unfold py_floordiv. destruct (Qeq_bool b 0) eqn:E; intro H; [discriminate|].
  injection H as <-. split; [|reflexivity].
  intro Hb. apply Qeq_bool_iff in Hb. congruence.
Qed.

(** The four branches of the loop body, as the code takes them. *)
Lemma step_inv (fee_percentage : Q) (s s' : ledger) (r : row) :
  step fee_percentage s r = Some s' ->
  portfolio_values s' = portfolio_values s ++ [cash s' + inject_Z (holdings s') * close r] /\
  prev_portfolio_value s' = cash s' + inject_Z (holdings s') * close r /\
  length (trades s') = S (length (trades s)) /\
  length (daily_returns s') = S (length (daily_returns s)) /\
  ((signal r = 1%Z /\ holdings s = 0%Z /\
    exists n, py_floordiv (cash s) (close r) = Some n /\ (0 < n)%Z /\
      cash s' = cash s - (inject_Z n * close r + inject_Z n * close r * fee_percentage) /\
      holdings s' = (holdings s + n)%Z /\
      total_fees s' = total_fees s + inject_Z n * close r * fee_percentage /\
      positions s' = positions s ++ [1%Z])
   \/ (signal r = 1%Z /\ holdings s = 0%Z /\
      exists n, py_floordiv (cash s) (close r) = Some n /\ (n <= 0)%Z /\
      cash s' = cash s /\ holdings s' = holdings s /\ total_fees s' = total_fees s /\
      positions s' = positions s)
   \/ (~ (signal r = 1%Z /\ holdings s = 0%Z) /\ signal r = (-1)%Z /\ (0 < holdings s)%Z /\
      cash s' = cash s + (inject_Z (holdings s) * close r
                          - inject_Z (holdings s) * close r * fee_percentage) /\
      holdings s' = 0%Z /\
      total_fees s' = total_fees s + inject_Z (holdings s) * close r * fee_percentage /\
      positions s' = positions s ++ [0%Z])
   \/ (~ (signal r = 1%Z /\ holdings s = 0%Z) /\
      ~ (signal r = (-1)%Z /\ (0 < holdings s)%Z) /\
      cash s' = cash s /\ holdings s' = holdings s /\ total_fees s' = total_fees s /\
      positions s' = positions s ++ [last (positions s) 0%Z])).
Proof.
  unfold step. cbv zeta. intro H.
  destruct ((signal r =? 1)%Z && (holdings s =? 0)%Z) eqn:Eb.
  - apply andb_true_iff in Eb. destruct Eb as [E1 E2].
    apply Z.eqb_eq in E1, E2.
    destruct (py_floordiv (cash s) (close r)) as [n|] eqn:Ep; [|discriminate].
    destruct (0 <? n)%Z eqn:En; simpl in H; injection H as <-; simpl;
      rewrite !length_app; simpl;
      (split; [reflexivity|]); (split; [reflexivity|]); (split; [lia|]); (split; [lia|]).
    + left. split; [exact E1|]. split; [exact E2|].
      exists n. apply Z.ltb_lt in En. repeat split; auto.
    + right; left. split; [exact E1|]. split; [exact E2|].
      exists n. apply Z.ltb_ge in En. repeat split; auto.
  - assert (Nb : ~ (signal r = 1%Z /\ holdings s = 0%Z)).
    { intros [E1 E2]. apply Z.eqb_eq in E1, E2. rewrite E1, E2 in Eb. discriminate. }
    destruct ((signal r =? -1)%Z && (0 <? holdings s)%Z) eqn:Es;
      simpl in H; injection H as <-; simpl;
      rewrite !length_app; simpl;
      (split; [reflexivity|]); (split; [reflexivity|]); (split; [lia|]); (split; [lia|]).
    + apply andb_true_iff in Es. destruct Es as [E1 E2].
      apply Z.eqb_eq in E1. apply Z.ltb_lt in E2.
      right; right; left. repeat split; auto.
    + right; right; right. split; [exact Nb|]. split; [|repeat split].
      intros [E1 E2]. apply Z.eqb_eq in E1. apply Z.ltb_lt in E2.
      rewrite E1, E2 in Es. discriminate.
Qed.

Lemma bt_loop_pv_prefix (f : Q) (rows : list row) (s sf : ledger) :
  bt_loop f s rows = Some sf ->
  exists suffix, portfolio_values sf = portfolio_values s ++ suffix.
Proof.
  revert s; induction rows as [|r rows IH]; intros s H; simpl in H.
  - injection H as <-. exists []. rewrite app_nil_r. reflexivity.
  - destruct (step f s r) as [s1|] eqn:E; [|discriminate].
    destruct (IH s1 H) as [suf Hsuf].
    destruct (step_inv f s s1 r E) as [Hpv _].
    exists (cash s1 + inject_Z (holdings s1) * close r :: suf).
    rewrite Hsuf, Hpv, <- app_assoc. reflexivity.
Qed.

Lemma bt_trace_length (f : Q) (rows : list row) (s sf : ledger) :
  bt_loop f s rows = Some sf -> length (bt_trace f s rows) = length rows.
Proof.
  revert s; induction rows as [|r rows IH]; intros s H; simpl in *; [reflexivity|].
  destruct (step f s r) as [s1|]; [|discriminate]. simpl. f_equal. apply (IH s1 H).
Qed.

Lemma bt_loop_pv_at (f : Q) (rows : list row) (s sf : ledger) (t : nat) (st : ledger) (r : row) :
  bt_loop f s rows = Some sf ->
  nth_error (bt_trace f s rows) t = Some st ->
  nth_error rows t = Some r ->
  nth_error (portfolio_values sf) (length (portfolio_values s) + t) =
    Some (cash st + inject_Z (holdings st) * close r).
Proof.
  revert s t; induction rows as [|r0 rows IH]; intros s t Hl Ht Hr; simpl in *.
  - destruct t; discriminate.
  - destruct (step f s r0) as [s1|] eqn:E; [|discriminate].
    destruct (step_inv f s s1 r0 E) as [Hpv _].
    destruct t as [|t]; simpl in Ht, Hr.
    + injection Ht as <-. injection Hr as <-.
      destruct (bt_loop_pv_prefix f rows s1 sf Hl) as [suf Hsuf].
      rewrite Hsuf, Hpv, <- app_assoc, Nat.add_0_r.
      rewrite nth_error_app2 by lia. rewrite Nat.sub_diag. reflexivity.
    + rewrite <- (IH s1 t Hl Ht Hr). rewrite Hpv, length_app. simpl.
      f_equal. lia.
Qed.

(** C2: in a run of the loop, the portfolio value recorded at step [t] is
    the cash plus the shares held times the close, all at step [t]. *)
Theorem portfolio_value_identity (fee_percentage initial_capital : Q) (rows : list row)
  (sf : ledger) (Hrun : bt_loop fee_percentage (init_ledger initial_capital) rows = Some sf) :
  length (bt_trace fee_percentage (init_ledger initial_capital) rows) = length rows /\
  forall t st r,
    nth_error (bt_trace fee_percentage (init_ledger initial_capital) rows) t = Some st ->
    nth_error rows t = Some r ->
    nth_error (portfolio_values sf) t = Some (cash st + inject_Z (holdings st) * close r).
Proof.
  split; [exact (bt_trace_length _ _ _ _ Hrun)|].
  intros t st r Ht Hr.
  exact (bt_loop_pv_at _ _ _ _ t st r Hrun Ht Hr).
Qed.

Lemma portfolio_value_identity_witness :
  exists sf,
    bt_loop (1 # 100) (init_ledger 100) [mkRow 10 1; mkRow 12 0; mkRow 15 (-1)] = Some sf /\
    length (bt_trace (1 # 100) (init_ledger 100) [mkRow 10 1; mkRow 12 0; mkRow 15 (-1)]) = 3%nat.
Proof.
  case_eq (bt_loop (1 # 100) (init_ledger 100) [mkRow 10 1; mkRow 12 0; mkRow 15 (-1)]);
    [intros sf H | intros H; vm_compute in H; discriminate].
  exists sf. split; [reflexivity|].
  exact (proj1 (portfolio_value_identity _ _ _ sf H)).
Defined.

(** ** Fee accumulation (claim C9) *)

Lemma step_fees_grow (fee_percentage : Q) (s s' : ledger) (r : row) :
  0 <= fee_percentage -> 0 < close r ->
  step fee_percentage s r = Some s' -> total_fees s <= total_fees s'.
Proof.
  intros Hf Hp H.
  destruct (step_inv _ _ _ _ H) as (_ & _ & _ & _ & Hb).
  assert (Hnn : forall n : Z, (0 < n)%Z -> 0 <= inject_Z n * close r * fee_percentage).
  { intros n Hn. apply Qmult_le_0_compat; [|exact Hf].
    apply Qmult_le_0_compat; [|apply Qlt_le_weak; exact Hp].
    change 0 with (inject_Z 0). rewrite <- Zle_Qle. lia. }
  destruct Hb as [(_ & _ & n & _ & Hn & _ & _ & Hfee & _)
                 |[(_ & _ & n & _ & _ & _ & _ & Hfee & _)
                 |[(_ & _ & Hh & _ & _ & Hfee & _)
                  |(_ & _ & _ & _ & Hfee & _)]]];
    rewrite Hfee.
  - specialize (Hnn n Hn). lra.
  - apply Qle_refl.
  - specialize (Hnn (holdings s) Hh). lra.
  - apply Qle_refl.
Qed.

Lemma bt_trace_fees_from (f : Q) (rows : list row) (s : ledger) (j : nat) (sj : ledger) :
  0 <= f -> Forall (fun r => 0 < close r) rows ->
  nth_error (bt_trace f s rows) j = Some sj -> total_fees s <= total_fees sj.
Proof.
  revert s j; induction rows as [|r rows IH]; intros s j Hf Hp Hj; simpl in Hj.
  - destruct j; discriminate.
  - inversion Hp as [|r' rows' Hr Hrows]; subst.
    destruct (step f s r) as [s1|] eqn:E; [|destruct j; discriminate].
    pose proof (step_fees_grow f s s1 r Hf Hr E) as H1.
    destruct j as [|j]; simpl in Hj.
    + injection Hj as <-. exact H1.
    + apply (Qle_trans _ _ _ H1). exact (IH s1 j Hf Hrows Hj).
Qed.

(** C9: with a nonnegative fee rate and positive closes, the running fee
    total never decreases from one step of the run to a later one. *)
Theorem cumulative_fees_monotone (fee_percentage initial_capital : Q) (rows : list row)
  (Hf : 0 <= fee_percentage) (Hp : Forall (fun r => 0 < close r) rows)
  (i j : nat) (si sj : ledger) (Hij : (i <= j)%nat)
  (Hi : nth_error (bt_trace fee_percentage (init_ledger initial_capital) rows) i = Some si)
  (Hj : nth_error (bt_trace fee_percentage (init_ledger initial_capital) rows) j = Some sj) :
  total_fees si <= total_fees sj.
Proof.
  revert Hi Hj. generalize (init_ledger initial_capital) as s.
  revert i j Hij.
  induction rows as [|r rows IH]; intros i j Hij s Hi' Hj'; simpl in Hi', Hj'.
  - destruct i; discriminate.
  - inversion Hp as [|r' rows' Hr Hrows]; subst.
    destruct (step fee_percentage s r) as [s1|] eqn:E; [|destruct i; discriminate].
    destruct i as [|i]; destruct j as [|j]; simpl in Hi', Hj'.
    + injection Hi' as <-. injection Hj' as <-. apply Qle_refl.
    + injection Hi' as <-. exact (bt_trace_fees_from _ _ _ j sj Hf Hrows Hj').
    + lia.
    + exact (IH Hrows i j ltac:(lia) s1 Hi' Hj').
Qed.

Lemma cumulative_fees_monotone_witness :
  exists si sj,
    nth_error (bt_trace (1 # 100) (init_ledger 100) [mkRow 10 1; mkRow 12 0; mkRow 15 (-1)]) 0
      = Some si /\
    nth_error (bt_trace (1 # 100) (init_ledger 100) [mkRow 10 1; mkRow 12 0; mkRow 15 (-1)]) 2
      = Some sj /\
    total_fees si <= total_fees sj.
Proof.
  case_eq (nth_error (bt_trace (1 # 100) (init_ledger 100)
                        [mkRow 10 1; mkRow 12 0; mkRow 15 (-1)]) 0);
    [intros si Hi | intros H; vm_compute in H; discriminate].
  case_eq (nth_error (bt_trace (1 # 100) (init_ledger 100)
                        [mkRow 10 1; mkRow 12 0; mkRow 15 (-1)]) 2);
    [intros sj Hj | intros H; vm_compute in H; discriminate].
  exists si, sj. split; [reflexivity|]. split; [reflexivity|].
  assert (Hf : 0 <= 1 # 100) by (apply Qle_bool_iff; reflexivity).
  assert (Hp : Forall (fun r => 0 < close r) [mkRow 10 1; mkRow 12 0; mkRow 15 (-1)]).
  { repeat apply Forall_cons; try apply Forall_nil; reflexivity. }
  exact (cumulative_fees_monotone (1 # 100) 100 _ Hf Hp 0 2 si sj ltac:(lia) Hi Hj).
Defined.

(** ** Cash stays nonnegative without fees (claim C10) *)

Lemma floor_shares_fit (c p : Q) (Hp : 0 < p) :
  inject_Z (Qfloor (c / p)) * p <= c.
Proof.
  assert (H1 : inject_Z (Qfloor (c / p)) * p <= c / p * p).
  { apply Qmult_le_compat_r; [apply Qfloor_le | apply Qlt_le_weak; exact Hp]. }
  assert (H2 : c / p * p == c).
  { rewrite Qmult_comm. apply Qmult_div_r. intro E. rewrite E in Hp.
    exact (Qlt_irrefl 0 Hp). }
  rewrite H2 in H1. exact H1.
Qed.

Lemma step_cash_nonneg (s s' : ledger) (r : row) :
  0 <= cash s -> (0 <= holdings s)%Z -> 0 < close r ->
  step 0 s r = Some s' -> 0 <= cash s' /\ (0 <= holdings s')%Z.
Proof.
  intros Hc Hh Hp H.
  destruct (step_inv _ _ _ _ H) as (_ & _ & _ & _ & Hb).
  destruct Hb as [(_ & H0 & n & Hn & Hpos & Hcash & Hhold & _)
                 |[(_ & _ & n & _ & _ & Hcash & Hhold & _)
                 |[(_ & _ & Hpos & Hcash & Hhold & _)
                  |(_ & _ & Hcash & Hhold & _)]]];
    rewrite Hcash, Hhold.
  - apply py_floordiv_some in Hn. destruct Hn as [_ ->].
    pose proof (floor_shares_fit (cash s) (close r) Hp). split; [lra | lia].
  - split; assumption.
  - assert (0 <= inject_Z (holdings s) * close r).
    { apply Qmult_le_0_compat; [|apply Qlt_le_weak; exact Hp].
      change 0 with (inject_Z 0). rewrite <- Zle_Qle. lia. }
    split; [lra | lia].
  - split; assumption.
Qed.

Lemma bt_trace_cash_nonneg (rows : list row) (s : ledger) :
  0 <= cash s -> (0 <= holdings s)%Z -> Forall (fun r => 0 < close r) rows ->
  forall st, In st (bt_trace 0 s rows) -> 0 <= cash st.
Proof.
  revert s; induction rows as [|r rows IH]; intros s Hc Hh Hp st Hin; simpl in Hin;
    [contradiction|].
  inversion Hp as [|r' rows' Hr Hrows]; subst.
  destruct (step 0 s r) as [s1|] eqn:E; [|contradiction].
  destruct (step_cash_nonneg s s1 r Hc Hh Hr E) as [Hc1 Hh1].
  destruct Hin as [<- | Hin]; [exact Hc1|].
  exact (IH s1 Hc1 Hh1 Hrows st Hin).
Qed.

(** C10: with fee rate 0, positive closes and positive capital, the cash
    is nonnegative after every step, whatever the signals. With a positive
    fee rate it is not: a buy sized on the pre-fee cash pays its fee on top
    (capital 100, close 10, fee 1%: 10 shares, cash -1). *)
Theorem cash_nonneg_without_fees :
  (forall (initial_capital : Q) (rows : list row),
     0 < initial_capital -> Forall (fun r => 0 < close r) rows ->
     forall st, In st (bt_trace 0 (init_ledger initial_capital) rows) -> 0 <= cash st) /\
  (exists st, In st (bt_trace (1 # 100) (init_ledger 100) [mkRow 10 1]) /\ cash st < 0).
Proof.
  split.
  - intros c rows Hc Hp. apply bt_trace_cash_nonneg; simpl; [lra | lia | exact Hp].
  - eexists. split; [simpl; left; reflexivity|]. reflexivity.
Qed.

Lemma cash_nonneg_without_fees_witness :
  Forall (fun st => 0 <= cash st) (bt_trace 0 (init_ledger 100) [mkRow 30 1; mkRow 40 (-1)]).
Proof.
  apply Forall_forall. apply (proj1 cash_nonneg_without_fees 100).
  - reflexivity.
  - repeat apply Forall_cons; try apply Forall_nil; reflexivity.
Defined.

(** ** The indicator on finite data (claims C4 and C5) *)

Definition nnfin (x : fl) : Prop := exists q, x = Fin q /\ 0 <= q.
Definition zero_or_nan (x : fl) : Prop := x = NaN \/ exists q, x = Fin q /\ q == 0.

Lemma length_diff (closes : list Q) : length (diff closes) = length closes.
Proof.
  destruct closes as [|c l]; simpl; [reflexivity|]. f_equal.
  revert c; induction l as [|c' l IH]; intros c; simpl; [reflexivity|]. f_equal. apply IH.
Qed.

Lemma diff_shape (closes : list Q) :
  Forall (fun d => d = NaN \/ exists a, d = Fin a) (diff closes).
Proof.
  destruct closes as [|c l]; simpl; constructor; [left; reflexivity|].
  revert c; induction l as [|c' l IH]; intros c; simpl; constructor; eauto.
Qed.

Lemma gain_col_nnfin (closes : list Q) : Forall nnfin (gain_col closes).
Proof.
  unfold gain_col. apply Forall_map.
  eapply Forall_impl; [|apply diff_shape]. intros d [-> | [a ->]].
  - exists 0. split; [reflexivity | apply Qle_refl].
  - unfold where_; simpl. destruct (qlt 0 a) eqn:E; simpl.
    + apply qlt_true in E. exists a. split; [reflexivity | apply Qlt_le_weak; exact E].
    + exists 0. split; [reflexivity | apply Qle_refl].
Qed.

Lemma loss_col_nnfin (closes : list Q) : Forall nnfin (loss_col closes).
Proof.
  unfold loss_col. apply Forall_map.
  eapply Forall_impl; [|apply diff_shape]. intros d [-> | [a ->]].
  - exists 0. split; [reflexivity | apply Qle_refl].
  - unfold where_; simpl. destruct (qlt a 0) eqn:E; simpl.
    + apply qlt_true in E. exists (- a). split; [reflexivity | lra].
    + exists (- 0). split; [reflexivity | lra].
Qed.

Lemma Forall_firstn_ {A : Type} (P : A -> Prop) n (l : list A) :
  Forall P l -> Forall P (firstn n l).
Proof.
  revert l; induction n as [|n IH]; intros [|a l] H; simpl; auto.
  inversion H; subst. constructor; auto.
Qed.

Lemma Forall_skipn_ {A : Type} (P : A -> Prop) n (l : list A) :
  Forall P l -> Forall P (skipn n l).
Proof.
  revert l; induction n as [|n IH]; intros [|a l] H; simpl; auto.
  inversion H; subst. auto.
Qed.

Lemma Forall_window (P : fl -> Prop) (period i : nat) (l : list fl) :
  Forall P l -> Forall P (window period i l).
Proof.
  intros H. unfold window. apply Forall_skipn_, Forall_firstn_, H.
Qed.

Lemma length_window (period i : nat) (l : list fl) :
  (0 < period)%nat -> (i < length l)%nat -> (0 < length (window period i l))%nat.
Proof.
  intros Hp Hi. unfold window. rewrite length_skipn, length_firstn. lia.
Qed.

Lemma nth_error_rolling_mean (period : nat) (l : list fl) (i : nat) :
  (i < length l)%nat ->
  nth_error (rolling_mean period l) i = Some (window_mean (window period i l)).
Proof.
  intros Hi. unfold rolling_mean. rewrite nth_error_map, nth_error_seq.
  destruct (Nat.ltb_spec i (length l)); [reflexivity | lia].
Qed.

Lemma length_rolling_mean (period : nat) (l : list fl) :
  length (rolling_mean period l) = length l.
Proof. unfold rolling_mean. rewrite length_map, length_seq. reflexivity. Qed.

Lemma filter_not_nan_fin (w : list fl) :
  Forall (fun x => exists q, x = Fin q) w -> filter (fun x => negb (is_nan x)) w = w.
Proof.
  induction w as [|x w IH]; intros H; simpl; [reflexivity|].
  inversion H as [|x' w' [q ->] Hw]; subst. simpl. f_equal. apply IH, Hw.
Qed.

Lemma fsum_nnfin (w : list fl) : Forall nnfin w -> nnfin (fsum w).
Proof.
  induction w as [|x w IH]; intros H.
  - exists 0. split; [reflexivity | apply Qle_refl].
  - inversion H as [|x' w' [a [-> Ha]] Hw]; subst.
    destruct (IH Hw) as [b [Hb Hb0]].
    change (fsum (Fin a :: w)) with (fadd (Fin a) (fsum w)). rewrite Hb.
    exists (a + b). split; [reflexivity | lra].
Qed.

Lemma window_mean_nnfin (w : list fl) :
  Forall nnfin w -> (0 < length w)%nat -> nnfin (window_mean w).
Proof.
  intros H Hlen. unfold window_mean.
  rewrite filter_not_nan_fin
    by (eapply Forall_impl; [|exact H]; intros x [q [-> _]]; eauto).
  destruct (length w =? 0)%nat eqn:E; [apply Nat.eqb_eq in E; lia|].
  destruct (fsum_nnfin w H) as [s [-> Hs]]. simpl. unfold qdiv.
  assert (Hn : 0 < inject_Z (Z.of_nat (length w))).
  { change 0 with (inject_Z 0). rewrite <- Zlt_Qlt. lia. }
  destruct (Qeq_bool (inject_Z (Z.of_nat (length w))) 0) eqn:Ez.
  - apply Qeq_bool_iff in Ez. rewrite Ez in Hn. exfalso. exact (Qlt_irrefl 0 Hn).
  - exists (s / inject_Z (Z.of_nat (length w))). split; [reflexivity|].
    apply Qle_shift_div_l; [exact Hn | lra].
Qed.

Lemma rolling_mean_nnfin (period : nat) (l : list fl) (i : nat) (x : fl) :
  (0 < period)%nat -> Forall nnfin l ->
  nth_error (rolling_mean period l) i = Some x -> nnfin x.
Proof.
  intros Hp Hl Hx.
  assert (Hi : (i < length (rolling_mean period l))%nat)
    by (apply nth_error_Some; rewrite Hx; discriminate).
  rewrite length_rolling_mean in Hi.
  rewrite nth_error_rolling_mean in Hx by exact Hi. injection Hx as <-.
  apply window_mean_nnfin; [apply Forall_window, Hl | apply length_window; assumption].
Qed.

(** The RSI formula where the average loss is 0. *)
Lemma rsi_value_zero_loss (qg ql : Q) :
  ql == 0 -> 0 <= qg ->
  (qg == 0 /\ rsi_value (Fin qg) (Fin ql) = Fin 50) \/
  (0 < qg /\ rsi_value (Fin qg) (Fin ql) = Fin 100).
Proof.
  intros Hl Hg. unfold rsi_value. simpl. unfold qdiv.
  assert (E : Qeq_bool ql 0 = true) by (apply Qeq_bool_iff; exact Hl).
  rewrite E.
  destruct (qlt 0 qg) eqn:E1.
  - right. apply qlt_true in E1. split; [exact E1 | reflexivity].
  - apply qlt_false in E1.
    destruct (qlt qg 0) eqn:E2.
    + apply qlt_true in E2. exfalso. lra.
    + left. split; [lra | reflexivity].
Qed.

Lemma length_gain_col (closes : list Q) : length (gain_col closes) = length closes.
Proof. unfold gain_col. rewrite length_map. apply length_diff. Qed.

Lemma length_loss_col (closes : list Q) : length (loss_col closes) = length closes.
Proof. unfold loss_col. rewrite length_map. apply length_diff. Qed.

(** C4, as the code has it: where the trailing average loss is 0, the RSI
    is the neutral 50 only when the average gain is 0 too; with a positive
    average gain, [rs] is [+inf], the formula gives 100 and [fillna(50)]
    does not touch it. The Sharpe ratio is 0 whenever the volatility is 0.
    Both are plain values, nothing raises. *)
Theorem rsi_zero_loss_and_sharpe_defaults :
  (forall (closes : list Q) (period t : nat) (ql : Q),
     (0 < period)%nat ->
     nth_error (avg_loss closes period) t = Some (Fin ql) -> ql == 0 ->
     exists qg, nth_error (avg_gain closes period) t = Some (Fin qg) /\
       ((qg == 0 /\ nth_error (calculate_rsi closes period) t = Some (Fin 50)) \/
        (0 < qg /\ nth_error (calculate_rsi closes period) t = Some (Fin 100)))) /\
  (forall rets : list Q, volatility rets = RFin 0%R -> sharpe_ratio rets = RFin 0%R).
Proof.
  split.
  - intros closes period t ql Hp Hl Hq.
    assert (Ht : (t < length (avg_loss closes period))%nat)
      by (apply nth_error_Some; rewrite Hl; discriminate).
    unfold avg_loss in Ht. rewrite length_rolling_mean, length_loss_col in Ht.
    assert (Hg : (t < length (avg_gain closes period))%nat)
      by (unfold avg_gain; rewrite length_rolling_mean, length_gain_col; exact Ht).
    apply nth_error_Some in Hg.
    destruct (nth_error (avg_gain closes period) t) as [x|] eqn:Ex; [|contradiction].
    destruct (rolling_mean_nnfin period (gain_col closes) t x Hp (gain_col_nnfin closes) Ex)
      as [qg [-> Hqg]].
    exists qg. split; [reflexivity|].
    unfold calculate_rsi. rewrite nth_error_zipWith, Ex, Hl.
    destruct (rsi_value_zero_loss qg ql Hq Hqg) as [[H1 H2] | [H1 H2]];
      rewrite H2; [left | right]; split; auto.
  - intros rets Hv. unfold sharpe_ratio. rewrite Hv.
    destruct (Req_dec_T 0 0) as [_ | Hne]; [reflexivity | exfalso; apply Hne; reflexivity].
Qed.

Lemma rsi_zero_loss_and_sharpe_defaults_witness :
  exists qg, nth_error (avg_gain [1; 2] 14) 1 = Some (Fin qg) /\
    ((qg == 0 /\ nth_error (calculate_rsi [1; 2] 14) 1 = Some (Fin 50)) \/
     (0 < qg /\ nth_error (calculate_rsi [1; 2] 14) 1 = Some (Fin 100))).
Proof.
  apply (proj1 rsi_zero_loss_and_sharpe_defaults [1; 2] 14%nat 1%nat (0 # 2)).
  - lia.
  - vm_compute. reflexivity.
  - reflexivity.
Defined.

(** ** A constant price series (claim C5) *)

Lemma diff_from_const (k : Q) (n : nat) :
  diff_from k (repeat k n) = repeat (Fin (k - k)) n.
Proof. induction n as [|n IH]; simpl; [reflexivity | rewrite IH; reflexivity]. Qed.

Lemma gain_col_const (k : Q) (n : nat) : gain_col (repeat k n) = repeat (Fin 0) n.
Proof.
  destruct n as [|n]; [reflexivity|].
  unfold gain_col. simpl. rewrite diff_from_const, map_repeat.
  unfold where_; simpl.
  assert (E : qlt 0 (k - k) = false) by (apply qlt_false; lra).
  rewrite E. reflexivity.
Qed.

Lemma loss_col_const (k : Q) (n : nat) : loss_col (repeat k n) = repeat (Fin 0) n.
Proof.
  destruct n as [|n]; [reflexivity|].
  unfold loss_col. simpl. rewrite diff_from_const, map_repeat.
  unfold where_; simpl.
  assert (E : qlt (k - k) 0 = false) by (apply qlt_false; lra).
  rewrite E. reflexivity.
Qed.

Lemma fsum_zero (w : list fl) : Forall (fun x => x = Fin 0) w -> fsum w = Fin 0.
Proof.
  induction w as [|x w IH]; intros H; [reflexivity|].
  inversion H as [|x' w' -> Hw]; subst.
  change (fsum (Fin 0 :: w)) with (fadd (Fin 0) (fsum w)). rewrite (IH Hw). reflexivity.
Qed.

Lemma window_mean_zero (w : list fl) :
  Forall (fun x => x = Fin 0) w -> zero_or_nan (window_mean w).
Proof.
  intros H. unfold window_mean.
  rewrite filter_not_nan_fin by (eapply Forall_impl; [|exact H]; intros x ->; eauto).
  destruct (length w =? 0)%nat; [left; reflexivity|].
  rewrite (fsum_zero w H). simpl. unfold qdiv.
  destruct (Qeq_bool (inject_Z (Z.of_nat (length w))) 0).
  - left. reflexivity.
  - right. eexists. split; [reflexivity|]. unfold Qdiv. apply Qmult_0_l.
Qed.

Lemma rolling_mean_zero (period : nat) (l : list fl) :
  Forall (fun x => x = Fin 0) l -> Forall zero_or_nan (rolling_mean period l).
Proof.
  intros H. unfold rolling_mean. apply Forall_map, Forall_forall.
  intros i _. apply window_mean_zero, Forall_window, H.
Qed.

Lemma rsi_value_zero (x y : fl) : zero_or_nan x -> zero_or_nan y -> rsi_value x y = Fin 50.
Proof.
  intros [-> | [g [-> Hg]]] [-> | [l [-> Hl]]]; try reflexivity.
  unfold rsi_value. simpl. unfold qdiv.
  assert (E : Qeq_bool l 0 = true) by (apply Qeq_bool_iff; exact Hl).
  assert (E1 : qlt 0 g = false) by (apply qlt_false; lra).
  assert (E2 : qlt g 0 = false) by (apply qlt_false; lra).
  rewrite E, E1, E2. reflexivity.
Qed.

Lemma zipWith_diag {A C : Type} (P : A -> Prop) (f : A -> A -> C) (c : C) (l : list A) :
  Forall P l -> (forall a, P a -> f a a = c) -> zipWith f l l = repeat c (length l).
Proof.
  intros H Hf. induction H as [|a l Ha Hl IH]; simpl; [reflexivity|].
  rewrite Hf by exact Ha. rewrite IH. reflexivity.
Qed.

Lemma zipWith_repeat {A B C : Type} (f : A -> B -> C) (a : A) (b : B) (n : nat) :
  zipWith f (repeat a n) (repeat b n) = repeat (f a b) n.
Proof. induction n as [|n IH]; simpl; [reflexivity | rewrite IH; reflexivity]. Qed.

Lemma removelast_repeat {A : Type} (a : A) (m : nat) :
  removelast (repeat a (S m)) = repeat a m.
Proof.
  induction m as [|m IH]; [reflexivity|].
  change (repeat a (S (S m))) with (a :: repeat a (S m)).
  change (repeat a (S m)) with (a :: repeat a m) at 1.
  simpl. simpl in IH. rewrite IH. reflexivity.
Qed.

Lemma calculate_rsi_const (k : Q) (n period : nat) :
  calculate_rsi (repeat k n) period = repeat (Fin 50) n.
Proof.
  unfold calculate_rsi, avg_gain, avg_loss. rewrite gain_col_const, loss_col_const.
  rewrite (zipWith_diag zero_or_nan rsi_value (Fin 50)).
  - rewrite length_rolling_mean, repeat_length. reflexivity.
  - apply rolling_mean_zero. apply Forall_forall. intros x Hx.
    apply repeat_spec in Hx. exact Hx.
  - intros a Ha. apply rsi_value_zero; exact Ha.
Qed.

Lemma signal_at_fifty (rsi_overbought rsi_oversold : Q) :
  signal_at rsi_overbought rsi_oversold (Fin 50) (Fin 50) = 0%Z.
Proof.
  unfold signal_at; simpl.
  destruct (qlt 50 rsi_overbought) eqn:E1, (Qle_bool rsi_overbought 50) eqn:E2,
           (qlt rsi_oversold 50) eqn:E3, (Qle_bool 50 rsi_oversold) eqn:E4;
    simpl; try reflexivity; qbool; lra.
Qed.

Lemma generate_signals_fifty (n : nat) (rsi_overbought rsi_oversold : Q) :
  generate_signals (repeat (Fin 50) n) rsi_overbought rsi_oversold = repeat 0%Z n.
Proof.
  destruct n as [|m]; [reflexivity|].
  assert (Hs : shift1 (repeat (Fin 50) (S m)) = NaN :: repeat (Fin 50) m).
  { unfold shift1. rewrite <- (removelast_repeat (Fin 50) m). reflexivity. }
  unfold generate_signals. rewrite Hs. cbn [repeat zipWith]. rewrite signal_at_first.
  rewrite zipWith_repeat, signal_at_fifty. reflexivity.
Qed.

Lemma step_hold (f k : Q) (s : ledger) :
  step f s (mkRow k 0) =
    Some (mkLedger (cash s) (holdings s) (total_fees s)
            (positions s ++ [last (positions s) 0%Z])
            (portfolio_values s ++ [cash s + inject_Z (holdings s) * k])
            (trades s ++ [0%Z])
            (daily_returns s ++
               [if negb (Qeq_bool (prev_portfolio_value s) 0)
                then (cash s + inject_Z (holdings s) * k - prev_portfolio_value s)
                     / prev_portfolio_value s
                else 0])
            (cash s + inject_Z (holdings s) * k)).
Proof. reflexivity. Qed.

Lemma bt_loop_hold (f k : Q) (m : nat) (s : ledger) :
  exists s', bt_loop f s (repeat (mkRow k 0) m) = Some s' /\
    cash s' = cash s /\ holdings s' = holdings s /\
    portfolio_values s' =
      portfolio_values s ++ repeat (cash s + inject_Z (holdings s) * k) m /\
    length (positions s') = (length (positions s) + m)%nat /\
    trades s' = trades s ++ repeat 0%Z m /\
    length (daily_returns s') = (length (daily_returns s) + m)%nat.
Proof.
  revert s; induction m as [|m IH]; intros s.
  - exists s. rewrite !app_nil_r, !Nat.add_0_r. repeat split; reflexivity.
  - cbn [repeat bt_loop]. rewrite step_hold.
    destruct (IH (mkLedger (cash s) (holdings s) (total_fees s)
            (positions s ++ [last (positions s) 0%Z])
            (portfolio_values s ++ [cash s + inject_Z (holdings s) * k])
            (trades s ++ [0%Z])
            (daily_returns s ++
               [if negb (Qeq_bool (prev_portfolio_value s) 0)
                then (cash s + inject_Z (holdings s) * k - prev_portfolio_value s)
                     / prev_portfolio_value s
                else 0])
            (cash s + inject_Z (holdings s) * k)))
      as (s' & Hl & Hc & Hh & Hpv & Hpos & Htr & Hdr).
    simpl in Hc, Hh, Hpv, Hpos, Htr, Hdr.
    exists s'. split; [exact Hl|]. split; [exact Hc|]. split; [exact Hh|].
    rewrite Hpv, <- app_assoc. split; [reflexivity|].
    rewrite length_app in Hpos, Hdr. simpl in Hpos, Hdr.
    split; [lia|]. rewrite Htr, <- app_assoc. split; [reflexivity | lia].
Qed.

Lemma cummax_from_repeat (v : Q) (m : nat) : cummax_from v (repeat v m) = repeat v m.
Proof.
  assert (E : qmax v v = v) by (unfold qmax; destruct (Qle_bool v v); reflexivity).
  induction m as [|m IH]; simpl; [reflexivity|]. rewrite E, IH. reflexivity.
Qed.

Lemma fold_fmin2_repeat (d : Q) (m : nat) : fold_left fmin2 (repeat (Fin d) m) (Fin d) = Fin d.
Proof.
  assert (E : fmin2 (Fin d) (Fin d) = Fin d)
    by (unfold fmin2; destruct (Qle_bool d d); reflexivity).
  induction m as [|m IH]; cbn [repeat fold_left]; [reflexivity|]. rewrite E. exact IH.
Qed.

Lemma metrics_const (v c fees : Q) (m : nat) (pos trs : list Z) (drs : list Q) :
  0 < c -> v == c ->
  exists mt,
    calculate_performance_metrics (mkResult (repeat v (S m)) fees pos trs drs) c = Some mt /\
    (exists q, m_total_return mt = Fin q /\ q == 0) /\
    (exists q, m_max_drawdown mt = Fin q /\ q == 0).
Proof.
  intros Hc Hv.
  assert (Ec : Qeq_bool c 0 = false).
  { destruct (Qeq_bool c 0) eqn:E; [|reflexivity].
    apply Qeq_bool_iff in E. rewrite E in Hc. exfalso. exact (Qlt_irrefl 0 Hc). }
  assert (Ev : Qeq_bool v 0 = false).
  { destruct (Qeq_bool v 0) eqn:E; [|reflexivity].
    apply Qeq_bool_iff in E. rewrite Hv in E. rewrite E in Hc.
    exfalso. exact (Qlt_irrefl 0 Hc). }
  unfold calculate_performance_metrics. cbn [res_portfolio_value].
  rewrite rev_repeat. cbn [repeat].
  eexists. split; [reflexivity|]. cbn [m_total_return m_max_drawdown].
  split.
  - simpl. unfold qdiv. rewrite Ec. eexists. split; [reflexivity|].
    rewrite Hv. unfold Qdiv. rewrite Qmult_inv_r; [reflexivity|].
    intro E. rewrite E in Hc. exact (Qlt_irrefl 0 Hc).
  - change (v :: repeat v m) with (repeat v (S m)).
    unfold drawdown, cummax. cbn [repeat]. rewrite cummax_from_repeat.
    change (v :: repeat v m) with (repeat v (S m)). rewrite zipWith_repeat.
    simpl fdiv. unfold qdiv. rewrite Ev.
    unfold series_min. rewrite filter_not_nan_fin.
    + cbn [repeat]. rewrite fold_fmin2_repeat. eexists. split; [reflexivity|].
      unfold Qminus, Qdiv. rewrite Qplus_opp_r. apply Qmult_0_l.
    + apply Forall_forall. intros x Hx. apply repeat_spec in Hx. eauto.
Qed.

Lemma pipeline_rows_const (k : Q) (n period : nat) (rsi_overbought rsi_oversold : Q) :
  pipeline_rows (repeat k n) period rsi_overbought rsi_oversold = repeat (mkRow k 0) n.
Proof.
  unfold pipeline_rows. rewrite calculate_rsi_const, generate_signals_fifty.
  apply zipWith_repeat.
Qed.

(** C5: on a constant series of length at least 1 the RSI is 50 at every
    step, no signal fires, every recorded portfolio value equals the
    initial capital, and the total return and the maximum drawdown are 0.
    This holds for any thresholds, period and fee rate. *)
Theorem constant_series_flat (k : Q) (n period : nat)
  (rsi_overbought rsi_oversold initial_capital fee_percentage : Q)
  (Hn : (1 <= n)%nat) (Hc : 0 < initial_capital) :
  calculate_rsi (repeat k n) period = repeat (Fin 50) n /\
  generate_signals (calculate_rsi (repeat k n) period) rsi_overbought rsi_oversold
    = repeat 0%Z n /\
  exists r mt,
    backtest_strategy (pipeline_rows (repeat k n) period rsi_overbought rsi_oversold)
      initial_capital fee_percentage = Some r /\
    length (res_portfolio_value r) = n /\
    Forall (fun v => v == initial_capital) (res_portfolio_value r) /\
    res_trades r = repeat 0%Z n /\
    calculate_performance_metrics r initial_capital = Some mt /\
    (exists q, m_total_return mt = Fin q /\ q == 0) /\
    (exists q, m_max_drawdown mt = Fin q /\ q == 0).
Proof.
  rewrite calculate_rsi_const. split; [reflexivity|].
  rewrite generate_signals_fifty. split; [reflexivity|].
  rewrite pipeline_rows_const.
  destruct (bt_loop_hold fee_percentage k n (init_ledger initial_capital))
    as (s' & Hl & _ & _ & Hpv & Hpos & Htr & Hdr).
  cbn [init_ledger cash holdings portfolio_values positions trades daily_returns length app]
    in Hpv, Hpos, Htr, Hdr.
  rewrite Nat.add_0_l in Hpos, Hdr.
  unfold backtest_strategy. rewrite Hl, Hpv, Hpos, Htr, Hdr, !repeat_length, !Nat.eqb_refl.
  cbn [andb].
  set (v := initial_capital + inject_Z 0 * k).
  assert (Hv : v == initial_capital) by (unfold v; change (inject_Z 0) with 0; lra).
  destruct n as [|m]; [lia|].
  destruct (metrics_const v initial_capital (total_fees s') m (positions s') (repeat 0%Z (S m))
              (daily_returns s') Hc Hv) as (mt & Hm & Htot & Hdd).
  eexists. exists mt. split; [reflexivity|]. cbn [res_portfolio_value res_trades].
  split; [apply repeat_length|].
  split.
  - apply Forall_forall. intros x Hx. apply repeat_spec in Hx. rewrite Hx. exact Hv.
  - split; [reflexivity|]. split; [exact Hm|]. split; assumption.
Qed.

Lemma constant_series_flat_witness :
  calculate_rsi (repeat 42 5) 14 = repeat (Fin 50) 5 /\
  generate_signals (calculate_rsi (repeat 42 5) 14) 70 30 = repeat 0%Z 5.
Proof.
  destruct (constant_series_flat 42 5 14 70 30 1000 (1 # 100) ltac:(lia) ltac:(reflexivity))
    as [H1 [H2 _]].
  split; [exact H1 | exact H2].
Defined.

(** ** Fee sensitivity with a single entry (claim C8) *)

(** The number of buys in a trades column. *)
Definition entries (l : list Z) : nat := length (filter (fun z => (z =? 1)%Z) l).

(** How a zero-fee run [s0] and a fee run [sf] over the same rows relate
    once the position has been entered. *)
Definition fee_rel (s0 sf : ledger) : Prop :=
  holdings s0 = holdings sf /\ (0 <= holdings s0)%Z /\ cash sf <= cash s0 /\
  last (portfolio_values sf) 0 <= last (portfolio_values s0) 0.

Lemma fee_rel_refl (s : ledger) : (0 <= holdings s)%Z -> fee_rel s s.
Proof. intros H. repeat split; auto using Qle_refl. Qed.

Lemma inject_Z_nonneg (n : Z) : (0 <= n)%Z -> 0 <= inject_Z n.
Proof. intros H. change 0 with (inject_Z 0). rewrite <- Zle_Qle. exact H. Qed.

Lemma fee_nonneg (n : Z) (p f : Q) : (0 <= n)%Z -> 0 <= p -> 0 <= f -> 0 <= inject_Z n * p * f.
Proof.
  intros Hn Hp Hf. apply Qmult_le_0_compat; [apply Qmult_le_0_compat|]; auto.
  apply inject_Z_nonneg, Hn.
Qed.

Lemma step_flat_nonbuy (f : Q) (s : ledger) (r : row) :
  holdings s = 0%Z -> signal r <> 1%Z -> step f s r = step 0 s r.
Proof.
  intros Hh Hs. unfold step. cbv zeta.
  assert (E : (signal r =? 1)%Z = false) by (apply Z.eqb_neq; exact Hs).
  rewrite E, Hh. simpl andb. destruct (signal r =? -1)%Z; reflexivity.
Qed.

Lemma step_buy_rel (f : Q) (s s0 sf : ledger) (r : row) :
  0 <= f -> 0 <= close r -> holdings s = 0%Z -> signal r = 1%Z ->
  step 0 s r = Some s0 -> step f s r = Some sf -> fee_rel s0 sf.
Proof.
  intros Hf Hp Hh Hs H0 Hf'.
  destruct (step_inv _ _ _ _ H0) as (Hpv0 & _ & _ & _ & B0).
  destruct (step_inv _ _ _ _ Hf') as (Hpvf & _ & _ & _ & Bf).
  unfold fee_rel. rewrite Hpv0, Hpvf, !last_last.
  destruct B0 as [(_ & _ & n & Hn & Hpos & Hc0 & Hh0 & _)
                 |[(_ & _ & n & Hn & Hneg & Hc0 & Hh0 & _)
                 |[(Nb & _) | (Nb & _)]]];
    [| | exfalso; apply Nb; split; assumption | exfalso; apply Nb; split; assumption];
  (destruct Bf as [(_ & _ & n' & Hn' & Hpos' & Hcf & Hhf & _)
                 |[(_ & _ & n' & Hn' & Hneg' & Hcf & Hhf & _)
                 |[(Nb & _) | (Nb & _)]]];
    [| | exfalso; apply Nb; split; assumption | exfalso; apply Nb; split; assumption]);
    rewrite Hn in Hn'; injection Hn' as <-; try lia.
  - rewrite Hc0, Hcf, Hh0, Hhf, Hh. simpl.
    pose proof (fee_nonneg n (close r) f ltac:(lia) Hp Hf).
    repeat split; try lia; lra.
  - rewrite Hc0, Hcf, Hh0, Hhf, Hh. repeat split; try lia; apply Qle_refl.
Qed.

Lemma step_hold_rel (f : Q) (s0 sf s0' sf' : ledger) (r : row) :
  0 <= f -> 0 <= close r -> ~ (signal r = 1%Z /\ holdings s0 = 0%Z) -> fee_rel s0 sf ->
  step 0 s0 r = Some s0' -> step f sf r = Some sf' -> fee_rel s0' sf'.
Proof.
  intros Hf Hp Hs (Hh & Hh0 & Hc & _) H0 Hf'.
  destruct (step_inv _ _ _ _ H0) as (Hpv0 & _ & _ & _ & B0).
  destruct (step_inv _ _ _ _ Hf') as (Hpvf & _ & _ & _ & Bf).
  unfold fee_rel. rewrite Hpv0, Hpvf, !last_last.
  destruct B0 as [(E & E' & _) | [(E & E' & _) | [(_ & Es & Hpos & Hc0 & Hh0' & _)
                                     | (_ & Ns & Hc0 & Hh0' & _)]]];
    [exfalso; exact (Hs (conj E E')) | exfalso; exact (Hs (conj E E')) | |];
  (destruct Bf as [(E & E' & _) | [(E & E' & _) | [(_ & Es' & Hpos' & Hcf & Hhf' & _)
                                       | (_ & Ns' & Hcf & Hhf' & _)]]];
    [exfalso; rewrite <- Hh in E'; exact (Hs (conj E E'))
    | exfalso; rewrite <- Hh in E'; exact (Hs (conj E E')) | |]).
  - rewrite Hc0, Hcf, Hh0', Hhf', <- Hh. change (inject_Z 0) with 0.
    pose proof (fee_nonneg (holdings s0) (close r) f ltac:(lia) Hp Hf).
    repeat split; try lia; lra.
  - exfalso. apply Ns'. rewrite <- Hh. split; assumption.
  - exfalso. apply Ns. rewrite Hh. split; assumption.
  - rewrite Hc0, Hcf, Hh0', Hhf', <- Hh. repeat split; try lia; lra.
Qed.

(** * Further properties of the code *)

(** ** The RSI column *)

Lemma Forall_zipWith {A B C : Type} (P : A -> Prop) (P' : B -> Prop) (R : C -> Prop)
  (f : A -> B -> C) (l1 : list A) (l2 : list B) :
  Forall P l1 -> Forall P' l2 -> (forall a b, P a -> P' b -> R (f a b)) ->
  Forall R (zipWith f l1 l2).
Proof.
  intros H1. revert l2. induction H1 as [|a l1 Ha H1 IH]; intros l2 H2 Hf; simpl.
  - constructor.
  - destruct H2 as [|b l2 Hb H2]; constructor; auto.
Qed.

Lemma rolling_mean_Forall_nnfin (period : nat) (l : list fl) :
  (0 < period)%nat -> Forall nnfin l -> Forall nnfin (rolling_mean period l).
Proof.
  intros Hp Hl. apply Forall_forall. intros x Hx.
  destruct (In_nth_error _ _ Hx) as [i Hi].
  exact (rolling_mean_nnfin period l i x Hp Hl Hi).
Qed.

(** The formula on two non-negative averages stays in [0, 100]. *)
Lemma rsi_value_range (g l : fl) :
  nnfin g -> nnfin l -> exists q, rsi_value g l = Fin q /\ 0 <= q <= 100.
Proof.
  intros [qg [-> Hg]] [ql [-> Hl]]. unfold rsi_value. cbn [fdiv]. unfold qdiv.
  destruct (Qeq_bool ql 0) eqn:E.
  - destruct (qlt 0 qg) eqn:E1.
    + exists 100. split; [reflexivity | lra].
    + destruct (qlt qg 0) eqn:E2.
      * apply qlt_true in E2. lra.
      * exists 50. split; [reflexivity | lra].
  - assert (Hl' : 0 < ql).
    { destruct (Qlt_le_dec 0 ql) as [H|H]; [exact H|].
      exfalso. assert (ql == 0) by lra. apply Qeq_bool_iff in H0. congruence. }
    assert (Hrs : 0 <= qg / ql) by (apply Qle_shift_div_l; lra).
    cbn [fadd fdiv]. unfold qdiv.
    destruct (Qeq_bool (1 + qg / ql) 0) eqn:E3.
    + apply Qeq_bool_iff in E3. lra.
    + cbn [fsub fadd fneg fillna].
      assert (H1 : 0 <= 100 / (1 + qg / ql)) by (apply Qle_shift_div_l; lra).
      assert (H2 : 100 / (1 + qg / ql) <= 100) by (apply Qle_shift_div_r; lra).
      exists (100 + - (100 / (1 + qg / ql))). split; [reflexivity | lra].
Qed.

Lemma length_calculate_rsi (closes : list Q) (period : nat) :
  length (calculate_rsi closes period) = length closes.
Proof.
  unfold calculate_rsi. rewrite length_zipWith. unfold avg_gain, avg_loss.
  rewrite !length_rolling_mean, length_gain_col, length_loss_col. apply Nat.min_id.
Qed.

(** For a lookback period of at least 1, [calculate_rsi] gives one value
    per price and every value is a finite number between 0 and 100: the
    infinities and NaN of the division never reach the column. *)
Theorem calculate_rsi_range (closes : list Q) (period : nat) (Hp : (0 < period)%nat) :
  length (calculate_rsi closes period) = length closes /\
  Forall (fun x => exists q, x = Fin q /\ 0 <= q <= 100) (calculate_rsi closes period).
Proof.
  split; [apply length_calculate_rsi|]. unfold calculate_rsi.
  apply (Forall_zipWith nnfin nnfin).
  - apply rolling_mean_Forall_nnfin; [exact Hp | apply gain_col_nnfin].
  - apply rolling_mean_Forall_nnfin; [exact Hp | apply loss_col_nnfin].
  - intros a b Ha Hb. apply rsi_value_range; assumption.
Qed.

Lemma calculate_rsi_range_witness :
  length (calculate_rsi [10; 12; 11; 15] 14) = length [10; 12; 11; 15] /\
  Forall (fun x => exists q, x = Fin q /\ 0 <= q <= 100) (calculate_rsi [10; 12; 11; 15] 14).
Proof. apply (calculate_rsi_range [10; 12; 11; 15] 14). lia. Defined.

(** The first RSI value of any non-empty series is 50: the first price
    change is NaN, so the first average gain and loss are both 0. *)
Theorem calculate_rsi_first (c : Q) (rest : list Q) (period : nat) (Hp : (0 < period)%nat) :
  nth_error (calculate_rsi (c :: rest) period) 0 = Some (Fin 50).
Proof.
  unfold calculate_rsi, avg_gain, avg_loss. rewrite nth_error_zipWith.
  rewrite !nth_error_rolling_mean
    by (rewrite ?length_gain_col, ?length_loss_col; simpl; lia).
  unfold window. replace (1 - period)%nat with 0%nat by lia. reflexivity.
Qed.

Lemma calculate_rsi_first_witness :
  nth_error (calculate_rsi [7; 3; 9] 14) 0 = Some (Fin 50).
Proof. apply (calculate_rsi_first 7 [3; 9] 14). lia. Defined.

Lemma nth_error_diff_from (c : Q) (l : list Q) (t : nat) (a b : Q) :
  nth_error (c :: l) t = Some a -> nth_error l t = Some b ->
  nth_error (diff_from c l) t = Some (Fin (b - a)).
Proof.
  revert c t; induction l as [|x l IH]; intros c t Ha Hb.
  - destruct t; discriminate.
  - destruct t as [|t]; simpl in *.
    + injection Ha as <-. injection Hb as <-. reflexivity.
    + apply IH; assumption.
Qed.

Lemma nth_error_diff (closes : list Q) (t : nat) (a b : Q) :
  nth_error closes t = Some a -> nth_error closes (S t) = Some b ->
  nth_error (diff closes) (S t) = Some (Fin (b - a)).
Proof.
  destruct closes as [|c l]; [destruct t; discriminate|].
  intros Ha Hb. simpl in Hb |- *. apply nth_error_diff_from; assumption.
Qed.

Lemma Qdiv_one (x : Q) : x / 1 == x.
Proof. field. Qed.

Lemma Qzero_div (x : Q) : 0 / x == 0.
Proof. unfold Qdiv. apply Qmult_0_l. Qed.

Lemma window_one (i : nat) (l : list fl) (x : fl) :
  nth_error l i = Some x -> window 1 i l = [x].
Proof.
  unfold window. replace (S i - 1)%nat with i by lia.
  revert l; induction i as [|i IH]; intros l H; destruct l as [|y l]; try discriminate.
  - injection H as ->. reflexivity.
  - simpl in H |- *. apply IH, H.
Qed.

(** With a lookback period of 1 the averages are the day's own gain and
    loss: the RSI is 100 on a day the price rises, 0 on a day it falls,
    and 50 on a day it is unchanged. *)
Theorem calculate_rsi_period_one (closes : list Q) (t : nat) (a b : Q)
  (Ha : nth_error closes t = Some a) (Hb : nth_error closes (S t) = Some b) :
  exists q, nth_error (calculate_rsi closes 1) (S t) = Some (Fin q) /\
    (a < b -> q == 100) /\ (b < a -> q == 0) /\ (b == a -> q == 50).
Proof.
  assert (Hlen : (S t < length closes)%nat) by (apply nth_error_Some; rewrite Hb; discriminate).
  pose proof (nth_error_diff closes t a b Ha Hb) as Hd.
  unfold calculate_rsi, avg_gain, avg_loss. rewrite nth_error_zipWith.
  rewrite !nth_error_rolling_mean by (rewrite ?length_gain_col, ?length_loss_col; exact Hlen).
  rewrite (window_one (S t) (gain_col closes)
             (fillna 0 (where_ (fun d => fgt d 0) 0 (Fin (b - a)))))
    by (unfold gain_col; rewrite nth_error_map, Hd; reflexivity).
  rewrite (window_one (S t) (loss_col closes)
             (fillna 0 (fneg (where_ (fun d => flt d 0) 0 (Fin (b - a))))))
    by (unfold loss_col; rewrite nth_error_map, Hd; reflexivity).
  unfold where_. cbn [fgt flt].
  destruct (Q_dec a b) as [[Hab|Hab]|Hab].
  - assert (E1 : qlt 0 (b - a) = true) by (apply qlt_true; lra).
    assert (E2 : qlt (b - a) 0 = false) by (apply qlt_false; lra).
    rewrite E1, E2. unfold window_mean, rsi_value. simpl. unfold qdiv.
    change (inject_Z 1) with 1.
    replace (Qeq_bool ((- 0 + 0) / 1) 0) with true by reflexivity.
    assert (E3 : qlt 0 ((b - a + 0) / 1) = true)
      by (apply qlt_true; rewrite Qdiv_one; lra).
    rewrite E3. exists 100. split; [reflexivity|]. split; [|split]; intros; lra.
  - assert (E1 : qlt 0 (b - a) = false) by (apply qlt_false; lra).
    assert (E2 : qlt (b - a) 0 = true) by (apply qlt_true; lra).
    rewrite E1, E2. unfold window_mean, rsi_value. simpl. unfold qdiv.
    change (inject_Z 1) with 1.
    assert (E3 : Qeq_bool ((- (b - a) + 0) / 1) 0 = false).
    { apply not_true_iff_false. intro H. apply Qeq_bool_iff in H.
      rewrite Qdiv_one in H. lra. }
    rewrite E3. simpl.
    eexists. split; [reflexivity|]. split; [|split]; intros; try lra.
    rewrite (Qdiv_one (0 + 0)), Qplus_0_l, Qzero_div, Qplus_0_r, Qdiv_one. reflexivity.
  - assert (E1 : qlt 0 (b - a) = false) by (apply qlt_false; lra).
    assert (E2 : qlt (b - a) 0 = false) by (apply qlt_false; lra).
    rewrite E1, E2. exists 50. split; [reflexivity|]. split; [|split]; intros; lra.
Qed.

Lemma calculate_rsi_period_one_witness :
  exists q, nth_error (calculate_rsi [10; 12; 11] 1) 1 = Some (Fin q) /\
    (10 < 12 -> q == 100) /\ (12 < 10 -> q == 0) /\ (12 == 10 -> q == 50).
Proof. apply (calculate_rsi_period_one [10; 12; 11] 0 10 12); reflexivity. Defined.

(** ** The signal column *)

Lemma buy_then_not_buy (x : fl) (q : Q) : fgt x q = true -> fle x q = false.
Proof.
  destruct x as [a| | |]; simpl; try discriminate; try reflexivity.
  intros H. apply qlt_true in H. apply Qle_bool_false. exact H.
Qed.

Lemma sell_then_not_sell (x : fl) (q : Q) : flt x q = true -> fge x q = false.
Proof.
  destruct x as [a| | |]; simpl; try discriminate; try reflexivity.
  intros H. apply qlt_true in H. apply Qle_bool_false. exact H.
Qed.

(** [generate_signals] never puts a Buy on two consecutive rows, nor a
    Sell on two consecutive rows, whatever the indicator and thresholds:
    a Buy needs the previous value at or below the oversold line, and
    the day before that Buy it was above it; likewise for Sell. *)
Theorem generate_signals_no_repeat (rsi : list fl) (rsi_overbought rsi_oversold : Q)
  (t : nat) (s s' : Z)
  (Ht : nth_error (generate_signals rsi rsi_overbought rsi_oversold) t = Some s)
  (Ht' : nth_error (generate_signals rsi rsi_overbought rsi_oversold) (S t) = Some s') :
  (s = 1%Z -> s' <> 1%Z) /\ (s = (-1)%Z -> s' <> (-1)%Z).
Proof.
  unfold generate_signals in *. rewrite nth_error_zipWith in Ht, Ht'.
  destruct (nth_error rsi (S t)) as [y|] eqn:Ey; [|discriminate].
  assert (Hl : (S t < length rsi)%nat) by (apply nth_error_Some; rewrite Ey; discriminate).
  rewrite (nth_error_shift1 rsi (S t) Hl) in Ht'.
  destruct (nth_error rsi t) as [x|] eqn:Ex; [|discriminate].
  destruct (nth_error (shift1 rsi) t) as [p|]; [|discriminate].
  injection Ht as <-. injection Ht' as <-. unfold signal_at. split; intros H.
  - destruct (flt x rsi_overbought && fge p rsi_overbought); [discriminate|].
    destruct (fgt x rsi_oversold) eqn:Eb; [|discriminate].
    rewrite (buy_then_not_buy x rsi_oversold Eb), andb_false_r.
    destruct (flt y rsi_overbought && fge x rsi_overbought); discriminate.
  - destruct (flt x rsi_overbought) eqn:Es;
      [|destruct (fgt x rsi_oversold && fle p rsi_oversold); discriminate].
    rewrite (sell_then_not_sell x rsi_overbought Es), andb_false_r.
    destruct (fgt y rsi_oversold && fle x rsi_oversold); discriminate.
Qed.

Lemma generate_signals_no_repeat_witness :
  nth_error (generate_signals (calculate_rsi [100; 90; 95; 97] 14) 70 30) 2 = Some 1%Z /\
  nth_error (generate_signals (calculate_rsi [100; 90; 95; 97] 14) 70 30) 3 = Some 0%Z /\
  (1%Z = 1%Z -> 0%Z <> 1%Z) /\ (1%Z = (-1)%Z -> 0%Z <> (-1)%Z).
Proof.
  split; [vm_compute; reflexivity|]. split; [vm_compute; reflexivity|].
  apply (generate_signals_no_repeat (calculate_rsi [100; 90; 95; 97] 14) 70 30 2);
    vm_compute; reflexivity.
Defined.

(** ** The simulator loop *)

Lemma bt_loop_app (f : Q) (s : ledger) (l1 l2 : list row) :
  bt_loop f s (l1 ++ l2) =
    match bt_loop f s l1 with Some s1 => bt_loop f s1 l2 | None => None end.
Proof.
  revert s; induction l1 as [|r l1 IH]; intros s; simpl; [reflexivity|].
  destruct (step f s r); [apply IH | reflexivity].
Qed.

Lemma bt_trace_nth_loop (f : Q) (s : ledger) (rows : list row) (t : nat) (st : ledger) :
  nth_error (bt_trace f s rows) t = Some st -> bt_loop f s (firstn (S t) rows) = Some st.
Proof.
  revert s t; induction rows as [|r rows IH]; intros s t H; simpl in H.
  - destruct t; discriminate.
  - destruct (step f s r) as [s1|] eqn:E; [|destruct t; discriminate].
    destruct t as [|t]; simpl in H.
    + injection H as <-. simpl. rewrite E. reflexivity.
    + change (firstn (S (S t)) (r :: rows)) with (r :: firstn (S t) rows).
      simpl. rewrite E. apply IH, H.
Qed.

(** A property kept by every step on the rows that satisfy [Rw] holds at
    the end of the loop. *)
Lemma bt_loop_inv (P : ledger -> Prop) (Rw : row -> Prop) (f : Q)
  (Hstep : forall s s' r, Rw r -> P s -> step f s r = Some s' -> P s') :
  forall rows s sf, Forall Rw rows -> P s -> bt_loop f s rows = Some sf -> P sf.
Proof.
  induction rows as [|r rows IH]; intros s sf Hr Hs H; simpl in H.
  - injection H as <-. exact Hs.
  - inversion Hr as [|r' rows' Hr1 Hrs]; subst.
    destruct (step f s r) as [s1|] eqn:E; [|discriminate].
    exact (IH s1 sf Hrs (Hstep s s1 r Hr1 Hs E) H).
Qed.

Lemma backtest_strategy_some (rows : list row) (c f : Q) (res : bt_result) :
  backtest_strategy rows c f = Some res ->
  exists s, bt_loop f (init_ledger c) rows = Some s /\
    res = mkResult (portfolio_values s) (total_fees s) (positions s) (trades s)
                   (daily_returns s) /\
    length (portfolio_values s) = length rows /\ length (positions s) = length rows /\
    length (trades s) = length rows /\ length (daily_returns s) = length rows.
Proof.
  unfold backtest_strategy. destruct (bt_loop f (init_ledger c) rows) as [s|]; [|discriminate].
  destruct (length (portfolio_values s) =? length rows)%nat eqn:E1;
  destruct (length (positions s) =? length rows)%nat eqn:E2;
  destruct (length (trades s) =? length rows)%nat eqn:E3;
  destruct (length (daily_returns s) =? length rows)%nat eqn:E4;
    simpl; intros H; try discriminate.
  injection H as <-. apply Nat.eqb_eq in E1, E2, E3, E4.
  exists s. repeat split; assumption.
Qed.

(** What one step appends to [trades], with the change of [holdings]. *)
Lemma step_trades (f : Q) (s s' : ledger) (r : row) :
  step f s r = Some s' ->
  exists tr, trades s' = trades s ++ [tr] /\
    ((tr = 1%Z /\ holdings s = 0%Z /\ (0 < holdings s')%Z) \/
     (tr = (-1)%Z /\ (0 < holdings s)%Z /\ holdings s' = 0%Z) \/
     (tr = 0%Z /\ holdings s' = holdings s)).
Proof.
  unfold step. cbv zeta. intro H.
  destruct ((signal r =? 1)%Z && (holdings s =? 0)%Z) eqn:Eb.
  - apply andb_true_iff in Eb. destruct Eb as [_ E2]. apply Z.eqb_eq in E2.
    destruct (py_floordiv (cash s) (close r)) as [n|]; [|discriminate].
    destruct (0 <? n)%Z eqn:En; simpl in H; injection H as <-; simpl.
    + apply Z.ltb_lt in En. exists 1%Z. split; [reflexivity|]. left. lia.
    + exists 0%Z. split; [reflexivity|]. right; right. lia.
  - destruct ((signal r =? -1)%Z && (0 <? holdings s)%Z) eqn:Es;
      simpl in H; injection H as <-; simpl.
    + apply andb_true_iff in Es. destruct Es as [_ E2]. apply Z.ltb_lt in E2.
      exists (-1)%Z. split; [reflexivity|]. right; left. lia.
    + exists 0%Z. split; [reflexivity|]. right; right. lia.
Qed.

(** The nonzero entries of a trades column. *)
Definition nonzero_trades (l : list Z) : list Z := filter (fun z => negb (z =? 0)%Z) l.

(** [z; -z; z; -z; ...] of length [n]. *)
Fixpoint alt_trades (n : nat) (z : Z) : list Z :=
  match n with
  | O => []
  | S m => z :: alt_trades m (- z)
  end.

(** What [backtest_strategy] keeps along its loop: holdings are never
    negative, the trades so far alternate buy, sell, buy, ... and an even
    number of them means no shares are held, and the last recorded
    position is 1 exactly when shares are held. *)
Definition trade_inv (s : ledger) : Prop :=
  (0 <= holdings s)%Z /\
  (exists k, nonzero_trades (trades s) = alt_trades k 1 /\
             (Nat.even k = true <-> holdings s = 0%Z)) /\
  last (positions s) 0%Z = (if (0 <? holdings s)%Z then 1%Z else 0%Z).

Lemma alt_trades_snoc (k : nat) (z : Z) :
  alt_trades (S k) z = alt_trades k z ++ [if Nat.even k then z else (- z)%Z].
Proof.
  revert z; induction k as [|k IH]; intros z; [reflexivity|].
  change (alt_trades (S (S k)) z) with (z :: alt_trades (S k) (- z)).
  rewrite IH. change (alt_trades (S k) z) with (z :: alt_trades k (- z)).
  rewrite <- app_comm_cons. f_equal. f_equal.
  rewrite Nat.even_succ, <- Nat.negb_even.
  destruct (Nat.even k); simpl; f_equal; lia.
Qed.

Lemma nonzero_trades_snoc (l : list Z) (z : Z) :
  nonzero_trades (l ++ [z]) = nonzero_trades l ++ (if (z =? 0)%Z then [] else [z]).
Proof.
  unfold nonzero_trades. rewrite filter_app. simpl.
  destruct (z =? 0)%Z; reflexivity.
Qed.

Lemma trade_inv_init (c : Q) : trade_inv (init_ledger c).
Proof.
  split; [simpl; lia|]. split; [|reflexivity].
  exists 0%nat. split; [reflexivity|]. simpl. tauto.
Qed.

Lemma trade_inv_step (f : Q) (s s' : ledger) (r : row) :
  trade_inv s -> step f s r = Some s' -> trade_inv s'.
Proof.
  intros (Hh & (k & Hk & Hev) & Hpos) E.
  destruct (step_trades f s s' r E) as (tr & Htr & Hcase).
  destruct (step_inv f s s' r E) as (_ & _ & _ & _ & B).
  assert (Hpos' : last (positions s') 0%Z = (if (0 <? holdings s')%Z then 1%Z else 0%Z)).
  { destruct B as [(_ & H0 & n & _ & Hn & _ & Hh' & _ & ->)
                  |[(_ & _ & n & _ & _ & _ & Hh' & _ & ->)
                  |[(_ & _ & H0 & _ & Hh' & _ & ->)
                   |(_ & _ & _ & Hh' & _ & ->)]]];
      rewrite ?last_last, Hh'.
    - rewrite H0. simpl. destruct (0 <? n)%Z eqn:En; [reflexivity|].
      apply Z.ltb_ge in En. lia.
    - exact Hpos.
    - reflexivity.
    - exact Hpos. }
  split; [|split; [|exact Hpos']].
  - destruct Hcase as [(_ & _ & H1) | [(_ & _ & H1) | (_ & H1)]]; lia.
  - rewrite Htr, nonzero_trades_snoc, Hk.
    destruct Hcase as [(-> & H0 & H1) | [(-> & H0 & H1) | (-> & H1)]].
    + exists (S k). assert (Ek : Nat.even k = true) by (apply Hev; exact H0).
      rewrite alt_trades_snoc, Ek. split; [reflexivity|].
      rewrite Nat.even_succ, <- Nat.negb_even, Ek. simpl. split; [discriminate | lia].
    + exists (S k). assert (Ek : Nat.even k = false).
      { apply not_true_iff_false. intro Ek. apply Hev in Ek. lia. }
      rewrite alt_trades_snoc, Ek. split; [reflexivity|].
      rewrite Nat.even_succ, <- Nat.negb_even, Ek. simpl. split; [intros _; exact H1 | reflexivity].
    + exists k. simpl. rewrite app_nil_r, H1. split; [reflexivity | exact Hev].
Qed.

Lemma bt_loop_trade_inv (f : Q) (rows : list row) (s sf : ledger) :
  trade_inv s -> bt_loop f s rows = Some sf -> trade_inv sf.
Proof.
  intros Hs H.
  apply (bt_loop_inv trade_inv (fun _ => True) f
           (fun s s' r _ Hs E => trade_inv_step f s s' r Hs E) rows s sf);
    [apply Forall_forall; trivial | exact Hs | exact H].
Qed.

Lemma sum_abs_nonzero (l : list Z) :
  fold_right Z.add 0%Z (map Z.abs l) = fold_right Z.add 0%Z (map Z.abs (nonzero_trades l)).
Proof.
  induction l as [|z l IH]; [reflexivity|]. unfold nonzero_trades in *. simpl.
  destruct (z =? 0)%Z eqn:Ez; simpl.
  - apply Z.eqb_eq in Ez. subst z. simpl. exact IH.
  - rewrite IH. reflexivity.
Qed.

Lemma sum_abs_alt (k : nat) (z : Z) :
  (z = 1 \/ z = -1)%Z -> fold_right Z.add 0%Z (map Z.abs (alt_trades k z)) = Z.of_nat k.
Proof.
  revert z; induction k as [|k IH]; intros z Hz; [reflexivity|].
  rewrite Nat2Z.inj_succ. cbn [alt_trades map fold_right]. rewrite IH by lia.
  destruct Hz as [-> | ->]; simpl Z.abs; lia.
Qed.

(** In every run that returns, the nonzero entries of the [Trades] column
    alternate buy, sell, buy, sell, ... starting with a buy; the number of
    trades is odd exactly when the run ends holding shares (last position
    1), and [calculate_performance_metrics] reports that number. *)
Theorem backtest_trades_alternate (rows : list row) (initial_capital fee_percentage : Q)
  (res : bt_result)
  (H : backtest_strategy rows initial_capital fee_percentage = Some res) :
  exists k, nonzero_trades (res_trades res) = alt_trades k 1 /\
    (Nat.odd k = true <-> last (res_positions res) 0%Z = 1%Z) /\
    forall m, calculate_performance_metrics res initial_capital = Some m ->
      m_number_of_trades m = Z.of_nat k.
Proof.
  destruct (backtest_strategy_some _ _ _ _ H) as (s & Hs & -> & _).
  destruct (bt_loop_trade_inv _ _ _ _ (trade_inv_init initial_capital) Hs)
    as (Hh & (k & Hk & Hev) & Hpos).
  exists k. simpl. split; [exact Hk|]. split.
  - rewrite <- Nat.negb_even, Hpos. split; intro E.
    + destruct (0 <? holdings s)%Z eqn:Eh; [reflexivity|].
      apply Z.ltb_ge in Eh. assert (H0 : holdings s = 0%Z) by lia.
      apply Hev in H0. rewrite H0 in E. discriminate.
    + destruct (0 <? holdings s)%Z eqn:Eh; [|discriminate].
      apply Z.ltb_lt in Eh. apply negb_true_iff, not_true_iff_false.
      intro Ek. apply Hev in Ek. lia.
  - intros m Hm. unfold calculate_performance_metrics in Hm. simpl in Hm.
    destruct (rev (portfolio_values s)); [discriminate|]. injection Hm as <-. simpl.
    rewrite sum_abs_nonzero, Hk. apply sum_abs_alt. left; reflexivity.
Qed.

Lemma backtest_trades_alternate_witness :
  exists res k, backtest_strategy (pipeline_rows [100; 90; 95; 120; 60; 40; 50] 14 70 30) 100 0
    = Some res /\ nonzero_trades (res_trades res) = alt_trades k 1.
Proof.
  case_eq (backtest_strategy (pipeline_rows [100; 90; 95; 120; 60; 40; 50] 14 70 30) 100 0);
    [intros res H | intros H; vm_compute in H; discriminate].
  destruct (backtest_trades_alternate _ _ _ res H) as (k & Hk & _).
  exists res, k. split; [reflexivity | exact Hk].
Defined.

Lemma step_positions (f : Q) (s s' : ledger) (r : row) :
  step f s r = Some s' ->
  exists suf, positions s' = positions s ++ suf /\ (length suf <= 1)%nat.
Proof.
  intros E. destruct (step_inv f s s' r E) as (_ & _ & _ & _ & B).
  destruct B as [(_ & _ & _ & _ & _ & _ & _ & _ & Hp)
                |[(_ & _ & _ & _ & _ & _ & _ & _ & Hp)
                |[(_ & _ & _ & _ & _ & _ & Hp)
                 |(_ & _ & _ & _ & _ & Hp)]]];
    rewrite Hp.
  - exists [1%Z]. split; [reflexivity | simpl; lia].
  - exists []. rewrite app_nil_r. split; [reflexivity | simpl; lia].
  - exists [0%Z]. split; [reflexivity | simpl; lia].
  - exists [last (positions s) 0%Z]. split; [reflexivity | simpl; lia].
Qed.

Lemma bt_loop_positions (f : Q) (rows : list row) (s sf : ledger) :
  bt_loop f s rows = Some sf ->
  exists suf, positions sf = positions s ++ suf /\ (length suf <= length rows)%nat.
Proof.
  revert s; induction rows as [|r rows IH]; intros s H; simpl in H.
  - injection H as <-. exists []. rewrite app_nil_r. split; [reflexivity | simpl; lia].
  - destruct (step f s r) as [s1|] eqn:E; [|discriminate].
    destruct (step_positions f s s1 r E) as (suf1 & H1 & L1).
    destruct (IH s1 H) as (suf & H2 & L2).
    exists (suf1 ++ suf). rewrite H2, H1, app_assoc. split; [reflexivity|].
    rewrite length_app. simpl. lia.
Qed.

Lemma nth_error_last_elem {A : Type} (l : list A) (d : A) (t : nat) :
  length l = S t -> nth_error l t = Some (last l d).
Proof.
  revert t; induction l as [|a l IH]; intros t H; [discriminate|].
  destruct l as [|b l].
  - simpl in H. assert (t = 0%nat) by lia. subst t. reflexivity.
  - destruct t as [|t]; [simpl in H; lia|].
    change (nth_error (b :: l) t = Some (last (b :: l) d)). apply IH. simpl in *. lia.
Qed.

(** In every run that returns, the [Positions] column is 1 exactly on the
    days that end with shares held and 0 on the others. *)
Theorem backtest_positions_track_holdings (rows : list row)
  (initial_capital fee_percentage : Q) (res : bt_result)
  (H : backtest_strategy rows initial_capital fee_percentage = Some res)
  (t : nat) (st : ledger)
  (Ht : nth_error (bt_trace fee_percentage (init_ledger initial_capital) rows) t = Some st) :
  nth_error (res_positions res) t = Some (if (0 <? holdings st)%Z then 1%Z else 0%Z).
Proof.
  destruct (backtest_strategy_some _ _ _ _ H) as (s & Hs & -> & _ & Hpl & _). simpl.
  pose proof (bt_trace_nth_loop _ _ _ _ _ Ht) as Hst.
  assert (Htl : (t < length rows)%nat).
  { rewrite <- (bt_trace_length _ _ _ _ Hs). apply nth_error_Some. rewrite Ht. discriminate. }
  rewrite <- (firstn_skipn (S t) rows), bt_loop_app, Hst in Hs.
  destruct (bt_loop_positions _ _ _ _ Hs) as (suf & Hsuf & Hlen).
  destruct (bt_loop_positions _ _ _ _ Hst) as (suf0 & Hsuf0 & Hlen0).
  simpl in Hsuf0. rewrite length_skipn in Hlen. rewrite length_firstn in Hlen0.
  assert (Hls : length (positions st) = S t).
  { rewrite Hsuf, length_app in Hpl. rewrite Hsuf0 in *. lia. }
  rewrite Hsuf, nth_error_app1 by lia.
  rewrite (nth_error_last_elem _ 0%Z t Hls).
  destruct (bt_loop_trade_inv _ _ _ _ (trade_inv_init initial_capital) Hst) as (_ & _ & Hp).
  rewrite Hp. reflexivity.
Qed.

Lemma backtest_positions_track_holdings_witness :
  exists res st,
    backtest_strategy (pipeline_rows [100; 90; 95; 120; 60] 14 70 30) 100 0 = Some res /\
    nth_error (bt_trace 0 (init_ledger 100) (pipeline_rows [100; 90; 95; 120; 60] 14 70 30)) 2
      = Some st /\
    nth_error (res_positions res) 2 = Some (if (0 <? holdings st)%Z then 1%Z else 0%Z).
Proof.
  case_eq (backtest_strategy (pipeline_rows [100; 90; 95; 120; 60] 14 70 30) 100 0);
    [intros res H | intros H; vm_compute in H; discriminate].
  case_eq (nth_error (bt_trace 0 (init_ledger 100) (pipeline_rows [100; 90; 95; 120; 60] 14 70 30)) 2);
    [intros st Ht | intros Ht; vm_compute in Ht; discriminate].
  exists res, st. split; [reflexivity|]. split; [reflexivity|].
  exact (backtest_positions_track_holdings _ _ _ res H 2 st Ht).
Defined.

(** ** Daily returns *)

(** [(1 + r_1) * ... * (1 + r_n)] *)
Definition compound (rets : list Q) : Q := fold_right Qmult 1 (map (Qplus 1) rets).

Lemma compound_snoc (l : list Q) (x : Q) : compound (l ++ [x]) == compound l * (1 + x).
Proof.
  unfold compound. induction l as [|a l IH]; simpl; [ring|].
  rewrite IH. ring.
Qed.

Lemma step_daily_return (f : Q) (s s' : ledger) (r : row) :
  step f s r = Some s' ->
  daily_returns s' = daily_returns s ++
    [if negb (Qeq_bool (prev_portfolio_value s) 0)
     then (prev_portfolio_value s' - prev_portfolio_value s) / prev_portfolio_value s
     else 0].
Proof.
  unfold step. cbv zeta. intro H.
  destruct ((signal r =? 1)%Z && (holdings s =? 0)%Z).
  - destruct (py_floordiv (cash s) (close r)) as [n|]; [|discriminate].
    destruct (0 <? n)%Z; simpl in H; injection H as <-; reflexivity.
  - destruct ((signal r =? -1)%Z && (0 <? holdings s)%Z);
      simpl in H; injection H as <-; reflexivity.
Qed.

Lemma step_prev_in_pv (f : Q) (s s' : ledger) (r : row) :
  step f s r = Some s' ->
  portfolio_values s' = portfolio_values s ++ [prev_portfolio_value s'].
Proof.
  intros E. destruct (step_inv f s s' r E) as (Hpv & Hprev & _). rewrite Hpv, Hprev. reflexivity.
Qed.

Lemma bt_loop_prev_last (f c : Q) (rows : list row) (sf : ledger) :
  bt_loop f (init_ledger c) rows = Some sf ->
  prev_portfolio_value sf = last (portfolio_values sf) c.
Proof.
  apply (bt_loop_inv (fun s => prev_portfolio_value s = last (portfolio_values s) c)
           (fun _ => True) f); [| apply Forall_forall; trivial | reflexivity].
  intros s s' r _ _ E. rewrite (step_prev_in_pv f s s' r E), last_last. reflexivity.
Qed.

Lemma bt_loop_compound (f c : Q) (rows : list row) (s sf : ledger) :
  bt_loop f s rows = Some sf -> ~ prev_portfolio_value s == 0 ->
  Forall (fun v => ~ v == 0) (portfolio_values sf) ->
  prev_portfolio_value s == c * compound (daily_returns s) ->
  prev_portfolio_value sf == c * compound (daily_returns sf).
Proof.
  revert s; induction rows as [|r rows IH]; intros s H Hp Hall Hinv; simpl in H.
  - injection H as <-. exact Hinv.
  - destruct (step f s r) as [s1|] eqn:E; [|discriminate].
    apply (IH s1 H); [| exact Hall |].
    + destruct (bt_loop_pv_prefix _ _ _ _ H) as [suf Hsuf].
      rewrite Forall_forall in Hall. apply Hall. rewrite Hsuf, (step_prev_in_pv f s s1 r E).
      apply in_or_app. left. apply in_or_app. right. left. reflexivity.
    + rewrite (step_daily_return f s s1 r E), compound_snoc.
      assert (Eq : Qeq_bool (prev_portfolio_value s) 0 = false).
      { apply not_true_iff_false. intro X. apply Qeq_bool_iff in X. contradiction. }
      rewrite Eq. simpl negb. cbv iota.
      rewrite Qmult_assoc, <- Hinv. field. exact Hp.
Qed.

Lemma rev_cons_last {A : Type} (l : list A) (x d : A) (ys : list A) :
  rev l = x :: ys -> last l d = x.
Proof.
  intros H. rewrite <- (rev_involutive l), H. simpl. apply last_last.
Qed.

(** When the capital and every recorded portfolio value are nonzero, the
    daily returns compound to the final value,
    [final = initial_capital * (1 + r_1) * ... * (1 + r_n)], and the total
    return of [calculate_performance_metrics] is that product minus 1. *)
Theorem daily_returns_compound (rows : list row) (initial_capital fee_percentage : Q)
  (res : bt_result)
  (H : backtest_strategy rows initial_capital fee_percentage = Some res)
  (Hc : ~ initial_capital == 0)
  (Hpv : Forall (fun v => ~ v == 0) (res_portfolio_value res)) :
  last (res_portfolio_value res) initial_capital
    == initial_capital * compound (res_daily_return res) /\
  forall m, calculate_performance_metrics res initial_capital = Some m ->
    exists q, m_total_return m = Fin q /\ q == compound (res_daily_return res) - 1.
Proof.
  destruct (backtest_strategy_some _ _ _ _ H) as (s & Hs & -> & _). simpl in *.
  assert (Hk : last (portfolio_values s) initial_capital
               == initial_capital * compound (daily_returns s)).
  { rewrite <- (bt_loop_prev_last _ _ _ _ Hs).
    apply (bt_loop_compound fee_percentage initial_capital rows (init_ledger initial_capital));
      [exact Hs | exact Hc | exact Hpv | simpl; unfold compound; simpl; ring]. }
  split; [exact Hk|].
  intros m Hm. unfold calculate_performance_metrics in Hm. simpl in Hm.
  destruct (rev (portfolio_values s)) as [|final ys] eqn:Er; [discriminate|].
  injection Hm as <-. simpl. unfold qdiv.
  assert (Eq : Qeq_bool initial_capital 0 = false).
  { apply not_true_iff_false. intro X. apply Qeq_bool_iff in X. contradiction. }
  rewrite Eq. eexists. split; [reflexivity|].
  rewrite <- (rev_cons_last _ final initial_capital ys Er), Hk. field. exact Hc.
Qed.

Lemma daily_returns_compound_witness :
  exists res,
    backtest_strategy (pipeline_rows [100; 90; 95; 120; 60] 14 70 30) 100 (1 # 100) = Some res /\
    last (res_portfolio_value res) 100 == 100 * compound (res_daily_return res).
Proof.
  case_eq (backtest_strategy (pipeline_rows [100; 90; 95; 120; 60] 14 70 30) 100 (1 # 100));
    [intros res H | intros H; vm_compute in H; discriminate].
  exists res. split; [reflexivity|].
  apply (daily_returns_compound _ 100 (1 # 100) res H).
  - intro X. discriminate.
  - vm_compute in H. injection H as <-. simpl.
    repeat constructor; intro X; discriminate.
Defined.

(** ** Runs without a Buy signal *)

Definition flat_state (c : Q) (k : nat) (s : ledger) : Prop :=
  holdings s = 0%Z /\ cash s = c /\ total_fees s = 0 /\
  positions s = repeat 0%Z k /\ trades s = repeat 0%Z k /\
  length (portfolio_values s) = k /\ length (daily_returns s) = k /\
  Forall (fun v => v == c) (portfolio_values s) /\ prev_portfolio_value s == c /\
  Forall (fun d => d == 0) (daily_returns s).

Lemma repeat_snoc {A : Type} (a : A) (k : nat) : repeat a k ++ [a] = repeat a (S k).
Proof. induction k as [|k IH]; simpl; [reflexivity | rewrite IH; reflexivity]. Qed.

Lemma last_repeat {A : Type} (a : A) (k : nat) : last (repeat a k) a = a.
Proof. induction k as [|k IH]; [reflexivity|]. destruct k; [reflexivity | exact IH]. Qed.

Lemma step_nonbuy_some (f : Q) (s : ledger) (r : row) :
  signal r <> 1%Z -> exists s', step f s r = Some s'.
Proof.
  intros Hs. unfold step. cbv zeta.
  rewrite (proj2 (Z.eqb_neq _ _) Hs). simpl andb.
  destruct ((signal r =? -1)%Z && (0 <? holdings s)%Z); eexists; reflexivity.
Qed.

Lemma step_flat (f c : Q) (k : nat) (s s' : ledger) (r : row) :
  signal r <> 1%Z -> flat_state c k s -> step f s r = Some s' -> flat_state c (S k) s'.
Proof.
  intros Hs (Hh & Hc & Hf & Hp & Ht & Hlp & Hld & Hpv & Hprev & Hdr) E.
  destruct (step_trades f s s' r E) as (tr & Htr & Hcase).
  pose proof (step_daily_return f s s' r E) as Hd.
  destruct (step_inv f s s' r E) as (Hpv' & Hprev' & _ & _ & B).
  destruct B as [(X & _) | [(X & _) | [(_ & _ & X & _) | (_ & _ & Hc' & Hh' & Hf' & Hp')]]];
    [contradiction | contradiction | lia |].
  assert (Etr : tr = 0%Z).
  { destruct Hcase as [(_ & _ & X) | [(_ & X & _) | (-> & _)]]; [lia | lia | reflexivity]. }
  assert (Hv : cash s' + inject_Z (holdings s') * close r == c).
  { rewrite Hc', Hh', Hh, Hc. change (inject_Z 0) with 0. ring. }
  unfold flat_state. rewrite Hh', Hh, Hc', Hc, Hf', Hf, Hp', Hp, Htr, Ht, Etr, Hpv', Hd.
  rewrite last_repeat, !repeat_snoc, !length_app, Hlp, Hld. simpl.
  split; [reflexivity|]. split; [reflexivity|]. split; [reflexivity|].
  split; [reflexivity|]. split; [reflexivity|]. split; [lia|]. split; [lia|].
  split; [apply Forall_app; split; [exact Hpv | constructor; [exact Hv | constructor]]|].
  split; [rewrite Hprev'; exact Hv|].
  apply Forall_app. split; [exact Hdr|]. constructor; [|constructor].
  destruct (negb (Qeq_bool (prev_portfolio_value s) 0)); [|reflexivity].
  assert (Z0 : prev_portfolio_value s' - prev_portfolio_value s == 0).
  { rewrite Hprev', Hv, Hprev. ring. }
  rewrite Z0. apply Qzero_div.
Qed.

Lemma bt_loop_flat (f c : Q) (rows : list row) (k : nat) (s : ledger) :
  Forall (fun r => signal r <> 1%Z) rows -> flat_state c k s ->
  exists sf, bt_loop f s rows = Some sf /\ flat_state c (k + length rows) sf.
Proof.
  revert k s; induction rows as [|r rows IH]; intros k s Hr Hs.
  - exists s. simpl. rewrite Nat.add_0_r. split; [reflexivity | exact Hs].
  - inversion Hr as [|r' rows' Hr1 Hrs]; subst.
    destruct (step_nonbuy_some f s r Hr1) as [s1 E].
    destruct (IH (S k) s1 Hrs (step_flat f c k s s1 r Hr1 Hs E)) as (sf & Hl & Hf).
    exists sf. simpl. rewrite E. split; [exact Hl|].
    replace (k + S (length rows))%nat with (S k + length rows)%nat by lia. exact Hf.
Qed.

(** A signal column without any Buy never trades: [backtest_strategy]
    returns, with no trade, position 0 and no fee on every row, the
    portfolio value equal to the initial capital on every row and every
    daily return 0, whatever the prices (a Sell while flat does nothing). *)
Theorem backtest_without_buys (rows : list row) (initial_capital fee_percentage : Q)
  (Hr : Forall (fun r => signal r <> 1%Z) rows) :
  exists res, backtest_strategy rows initial_capital fee_percentage = Some res /\
    res_trades res = repeat 0%Z (length rows) /\
    res_positions res = repeat 0%Z (length rows) /\
    res_total_fees res = 0 /\
    Forall (fun v => v == initial_capital) (res_portfolio_value res) /\
    Forall (fun d => d == 0) (res_daily_return res).
Proof.
  assert (H0 : flat_state initial_capital 0 (init_ledger initial_capital)).
  { repeat split; simpl; try constructor; reflexivity. }
  destruct (bt_loop_flat fee_percentage initial_capital rows 0 _ Hr H0)
    as (sf & Hl & Hh & Hc & Hf & Hp & Ht & Hlp & Hld & Hpv & _ & Hdr).
  simpl in Hp, Ht, Hlp, Hld.
  unfold backtest_strategy. rewrite Hl, Hlp, Hld, Hp, Ht, repeat_length, Nat.eqb_refl.
  simpl. eexists. split; [reflexivity|]. simpl. rewrite Hf.
  repeat split; assumption.
Qed.

Lemma backtest_without_buys_witness :
  exists res, backtest_strategy [mkRow 10 0; mkRow 12 (-1); mkRow 9 0] 100 (1 # 100) = Some res /\
    res_trades res = repeat 0%Z 3 /\ res_positions res = repeat 0%Z 3 /\
    res_total_fees res = 0 /\
    Forall (fun v => v == 100) (res_portfolio_value res) /\
    Forall (fun d => d == 0) (res_daily_return res).
Proof.
  apply (backtest_without_buys [mkRow 10 0; mkRow 12 (-1); mkRow 9 0] 100 (1 # 100)).
  repeat constructor; discriminate.
Defined.

(** ** Drawdown *)

Definition in_drawdown_range (x : fl) : Prop := exists q, x = Fin q /\ -1 < q <= 0.

Lemma drawdown_value_range (v m : Q) :
  0 < v -> v <= m -> in_drawdown_range (fdiv (Fin (v - m)) (Fin m)).
Proof.
  intros Hv Hm. simpl. unfold qdiv.
  destruct (Qeq_bool m 0) eqn:E; [apply Qeq_bool_iff in E; lra|].
  eexists. split; [reflexivity|]. split.
  - apply Qlt_shift_div_l; lra.
  - apply Qle_shift_div_r; lra.
Qed.

Lemma drawdown_from_range (l : list Q) (m : Q) :
  0 < m -> Forall (fun v => 0 < v) l ->
  Forall in_drawdown_range
    (zipWith (fun v m => fdiv (Fin (v - m)) (Fin m)) l (cummax_from m l)).
Proof.
  revert m; induction l as [|v l IH]; intros m Hm Hl; simpl; [constructor|].
  inversion Hl as [|v' l' Hv Hl']; subst.
  assert (Hq : v <= qmax m v /\ m <= qmax m v).
  { unfold qmax. destruct (Qle_bool m v) eqn:E; qbool; split; lra. }
  constructor.
  - apply drawdown_value_range; [exact Hv | apply Hq].
  - apply IH; [destruct Hq; lra | exact Hl'].
Qed.

Lemma fold_fmin2_range (xs : list fl) (x : fl) :
  in_drawdown_range x -> Forall in_drawdown_range xs ->
  in_drawdown_range (fold_left fmin2 xs x).
Proof.
  revert x; induction xs as [|y xs IH]; intros x Hx Hxs; simpl; [exact Hx|].
  inversion Hxs as [|y' xs' Hy Hxs']; subst. apply IH; [|exact Hxs'].
  destruct Hx as [a [-> Ha]], Hy as [b [-> Hb]]. simpl.
  destruct (Qle_bool a b); eexists; split; (reflexivity || exact Ha || exact Hb).
Qed.

(** When every recorded portfolio value is positive, the maximum drawdown
    reported by [calculate_performance_metrics] is a finite number in
    (-1, 0]: a loss of less than 100% from the running peak. *)
Theorem max_drawdown_range (res : bt_result) (initial_capital : Q) (m : metrics)
  (Hm : calculate_performance_metrics res initial_capital = Some m)
  (Hpos : Forall (fun v => 0 < v) (res_portfolio_value res)) :
  in_drawdown_range (m_max_drawdown m).
Proof.
  unfold calculate_performance_metrics in Hm.
  destruct (rev (res_portfolio_value res)) as [|fin ys] eqn:Er; [discriminate|].
  injection Hm as <-. simpl.
  destruct (res_portfolio_value res) as [|v l] eqn:Epv; [discriminate|].
  inversion Hpos as [|v' l' Hv Hl]; subst.
  change (drawdown (v :: l)) with
    (fdiv (Fin (v - v)) (Fin v) :: zipWith (fun v m => fdiv (Fin (v - m)) (Fin m)) l (cummax_from v l)).
  unfold series_min.
  assert (H0 : in_drawdown_range (fdiv (Fin (v - v)) (Fin v)))
    by (apply drawdown_value_range; lra).
  assert (Hr : Forall in_drawdown_range
                 (zipWith (fun v m => fdiv (Fin (v - m)) (Fin m)) l (cummax_from v l)))
    by (apply drawdown_from_range; assumption).
  rewrite filter_not_nan_fin.
  - apply fold_fmin2_range; assumption.
  - constructor; [destruct H0 as [q [-> _]]; eauto|].
    eapply Forall_impl; [|exact Hr]. intros x [q [-> _]]. eauto.
Qed.

Lemma max_drawdown_range_witness :
  exists m,
    calculate_performance_metrics (mkResult [100; 120; 90; 110] 0 [] [] [0; 0; 0; 0]) 100
      = Some m /\ in_drawdown_range (m_max_drawdown m).
Proof.
  case_eq (calculate_performance_metrics (mkResult [100; 120; 90; 110] 0 [] [] [0; 0; 0; 0]) 100);
    [intros m H | intros H; discriminate].
  exists m. split; [reflexivity|].
  apply (max_drawdown_range _ 100 m H). repeat constructor.
Defined.

(** ** Validation of the entries *)

Lemma fle_zero_false (x : fl) :
  fle x 0 = false <-> x = NaN \/ x = PInf \/ exists q, x = Fin q /\ 0 < q.
Proof.
  destruct x as [q| | |]; simpl; split; intro H; try discriminate; auto.
  - right; right. exists q. split; [reflexivity|]. qbool. exact H.
  - destruct H as [H|[H|(q' & H & Hq)]]; try discriminate. injection H as <-.
    apply Qle_bool_false. exact Hq.
  - destruct H as [H|[H|(q' & H & Hq)]]; discriminate.
Qed.

Lemma flt_zero_false (x : fl) :
  flt x 0 = false <-> x = NaN \/ x = PInf \/ exists q, x = Fin q /\ 0 <= q.
Proof.
  destruct x as [q| | |]; simpl; split; intro H; try discriminate; auto.
  - right; right. exists q. split; [reflexivity|]. qbool. exact H.
  - destruct H as [H|[H|(q' & H & Hq)]]; try discriminate. injection H as <-.
    apply qlt_false. exact Hq.
  - destruct H as [H|[H|(q' & H & Hq)]]; discriminate.
Qed.

Lemma open_range_true (x : fl) :
  fgt x 0 && flt x 100 = true <-> exists b, x = Fin b /\ 0 < b < 100.
Proof.
  destruct x as [q| | |]; simpl; split; intro H; try discriminate.
  - qbool. exists q. split; [reflexivity|]. split; assumption.
  - destruct H as (b & E & H1 & H2). injection E as <-.
    rewrite (proj2 (qlt_true _ _) H1), (proj2 (qlt_true _ _) H2). reflexivity.
  - destruct H as (b & E & _); discriminate.
  - destruct H as (b & E & _); discriminate.
  - destruct H as (b & E & _); discriminate.
Qed.

(** On finite entries [validate_float] does what [validate] does. *)
Lemma validate_float_finite (capital_entry fee_entry overbought_entry oversold_entry : option Q) :
  validate_float (option_map Fin capital_entry) (option_map Fin fee_entry)
    (option_map Fin overbought_entry) (option_map Fin oversold_entry) =
  match validate capital_entry fee_entry overbought_entry oversold_entry with
  | inl (c, f, ob, os) => inl (Fin c, Fin f, Fin ob, Fin os)
  | inr msg => inr msg
  end.
Proof.
  destruct capital_entry as [a|], fee_entry as [b|], overbought_entry as [o|],
    oversold_entry as [s|]; unfold validate_float, validate; simpl;
    try reflexivity;
    repeat match goal with |- context [if ?c then _ else _] => destruct c end;
    reflexivity.
Qed.

(** [run_backtest] accepts its entries exactly when all four parse and
    pass the checks as Python evaluates them on floats. A capital [nan]
    or [inf] passes [initial_capital <= 0] and is accepted, and so is a
    fee [nan] or [inf]; a finite capital must be positive and a finite
    fee not negative. The two RSI levels must be finite, strictly between
    0 and 100, with oversold below overbought. The entries are passed on
    unchanged except for the fee, which is divided by 100. *)
Theorem validate_float_accepts
  (capital_entry fee_entry overbought_entry oversold_entry : option fl)
  (initial_capital fee_percentage rsi_overbought rsi_oversold : fl) :
  validate_float capital_entry fee_entry overbought_entry oversold_entry =
    inl (initial_capital, fee_percentage, rsi_overbought, rsi_oversold) <->
  exists fee_text ob os,
    capital_entry = Some initial_capital /\ fee_entry = Some fee_text /\
    fee_percentage = fdiv fee_text (Fin 100) /\
    overbought_entry = Some rsi_overbought /\ oversold_entry = Some rsi_oversold /\
    (initial_capital = NaN \/ initial_capital = PInf \/
       exists q, initial_capital = Fin q /\ 0 < q) /\
    (fee_percentage = NaN \/ fee_percentage = PInf \/
       exists q, fee_percentage = Fin q /\ 0 <= q) /\
    rsi_overbought = Fin ob /\ rsi_oversold = Fin os /\
    0 < ob < 100 /\ 0 < os < 100 /\ os < ob.
Proof.
  split.
  - destruct capital_entry as [a|], fee_entry as [b|], overbought_entry as [o|],
      oversold_entry as [s|]; unfold validate_float; intro H;
      try (repeat match type of H with context [if ?c then _ else _] => destruct c end;
           discriminate).
    destruct (fle a 0) eqn:E1; [discriminate|].
    destruct (flt (fdiv b (Fin 100)) 0) eqn:E2; [discriminate|].
    destruct (fgt o 0 && flt o 100) eqn:E3; [|discriminate].
    destruct (fgt s 0 && flt s 100) eqn:E4; [|discriminate].
    destruct (fge2 s o) eqn:E5; [discriminate|].
    simpl in H. injection H as <- <- <- <-.
    apply fle_zero_false in E1. apply flt_zero_false in E2.
    apply open_range_true in E3, E4.
    destruct E3 as (ob & -> & Ho), E4 as (os & -> & Hs).
    simpl in E5. apply Qle_bool_false in E5.
    exists b, ob, os. repeat split; auto; apply Ho || apply Hs.
  - intros (b & ob & os & -> & -> & -> & -> & -> & Hc & Hf & -> & -> & Ho & Hs & Hos).
    unfold validate_float.
    rewrite (proj2 (fle_zero_false _) Hc), (proj2 (flt_zero_false _) Hf).
    rewrite (proj2 (open_range_true (Fin ob)) (ex_intro _ ob (conj eq_refl Ho))).
    rewrite (proj2 (open_range_true (Fin os)) (ex_intro _ os (conj eq_refl Hs))).
    simpl. rewrite (proj2 (Qle_bool_false _ _) Hos). reflexivity.
Qed.

Lemma length_shift1 (l : list fl) : length (shift1 l) = length l.
Proof.
  destruct l as [|a l]; [reflexivity|]. simpl. f_equal.
  revert a; induction l as [|b l IH]; intros a; [reflexivity|].
  change (removelast (a :: b :: l)) with (a :: removelast (b :: l)). simpl. f_equal. apply IH.
Qed.

Lemma length_pipeline_rows (closes : list Q) (period : nat) (rsi_overbought rsi_oversold : Q) :
  length (pipeline_rows closes period rsi_overbought rsi_oversold) = length closes.
Proof.
  unfold pipeline_rows, generate_signals. rewrite !length_zipWith, length_shift1.
  rewrite length_calculate_rsi, !Nat.min_id. reflexivity.
Qed.

(** Once the entries are accepted and the download is not empty,
    [run_backtest] either stops with the exception raised inside
    [backtest_strategy], or computes the metrics and shows them:
    [calculate_performance_metrics] never raises on what
    [backtest_strategy] returns. *)
Theorem run_backtest_after_validation
  (capital_entry fee_entry overbought_entry oversold_entry : option Q)
  (initial_capital fee_percentage rsi_overbought rsi_oversold : Q) (fetched : list Q)
  (Hv : validate capital_entry fee_entry overbought_entry oversold_entry =
          inl (initial_capital, fee_percentage, rsi_overbought, rsi_oversold))
  (Hf : fetched <> []) :
  (backtest_strategy (pipeline_rows fetched 14 rsi_overbought rsi_oversold)
     initial_capital fee_percentage = None /\
   run_backtest capital_entry fee_entry overbought_entry oversold_entry fetched =
     (Raised, [FetchData; CalcRsi; GenSignals; RunBacktest])) \/
  (exists res m,
     backtest_strategy (pipeline_rows fetched 14 rsi_overbought rsi_oversold)
       initial_capital fee_percentage = Some res /\
     calculate_performance_metrics res initial_capital = Some m /\
     run_backtest capital_entry fee_entry overbought_entry oversold_entry fetched =
       (Displayed m, [FetchData; CalcRsi; GenSignals; RunBacktest; CalcMetrics;
                      DisplayMetrics; PlotResults])).
Proof.
  unfold run_backtest. rewrite Hv.
  assert (Hn : length (pipeline_rows fetched 14 rsi_overbought rsi_oversold) <> 0%nat).
  { rewrite length_pipeline_rows. destruct fetched; [contradiction | discriminate]. }
  destruct fetched as [|c0 rest]; [contradiction|].
  fold (pipeline_rows (c0 :: rest) 14 rsi_overbought rsi_oversold).
  destruct (backtest_strategy (pipeline_rows (c0 :: rest) 14 rsi_overbought rsi_oversold)
              initial_capital fee_percentage) as [res|] eqn:Eb.
  - right.
    destruct (backtest_strategy_some _ _ _ _ Eb) as (s & _ & Hres & Hlp & _).
    unfold calculate_performance_metrics.
    destruct (rev (res_portfolio_value res)) as [|final ys] eqn:Er.
    + exfalso. apply Hn. rewrite <- Hlp.
      apply (f_equal (@length Q)) in Er. rewrite length_rev in Er.
      rewrite Hres in Er. exact Er.
    + eexists res, _. split; [reflexivity|]. rewrite Er. split; reflexivity.
  - left. split; reflexivity.
Qed.

Lemma validate_float_accepts_witness :
  validate_float (Some NaN) (Some (Fin (1 # 10))) (Some (Fin 70)) (Some (Fin 30)) =
    inl (NaN, fdiv (Fin (1 # 10)) (Fin 100), Fin 70, Fin 30).
Proof.
  apply (proj2 (validate_float_accepts (Some NaN) (Some (Fin (1 # 10))) (Some (Fin 70))
                  (Some (Fin 30)) NaN (fdiv (Fin (1 # 10)) (Fin 100)) (Fin 70) (Fin 30))).
  exists (Fin (1 # 10)), 70, 30.
  repeat split; try (left; reflexivity); try reflexivity;
    try (right; right; eexists; split; [reflexivity|]); vm_compute;
    try reflexivity; discriminate.
Defined.

Lemma run_backtest_after_validation_witness :
  exists res m,
    backtest_strategy (pipeline_rows [100; 90; 95] 14 70 30) 10000 ((1 # 10) / 100) = Some res /\
    calculate_performance_metrics res 10000 = Some m /\
    run_backtest (Some 10000) (Some (1 # 10)) (Some 70) (Some 30) [100; 90; 95] =
      (Displayed m, [FetchData; CalcRsi; GenSignals; RunBacktest; CalcMetrics;
                     DisplayMetrics; PlotResults]).
Proof.
  destruct (run_backtest_after_validation (Some 10000) (Some (1 # 10)) (Some 70) (Some 30)
              10000 ((1 # 10) / 100) 70 30 [100; 90; 95] eq_refl ltac:(discriminate))
    as [[H _] | H].
  - vm_compute in H. discriminate.
  - exact H.
Defined.

(** ** Buy and hold *)

Lemma bh_value_fin (c x c0 : Q) :
  ~ c0 == 0 -> fmul (Fin c) (fdiv (Fin x) (Fin c0)) = Fin (c * (x / c0)).
Proof.
  intros H0. simpl. unfold qdiv.
  destruct (Qeq_bool c0 0) eqn:E; [qbool; contradiction | reflexivity].
Qed.

Lemma bh_values_fin (c c0 : Q) (l : list Q) :
  ~ c0 == 0 ->
  map (fun x => fmul (Fin c) (fdiv (Fin x) (Fin c0))) l =
    map Fin (map (fun x => c * (x / c0)) l).
Proof.
  intros H0. rewrite map_map. apply map_ext. intros x. apply bh_value_fin, H0.
Qed.

Lemma rev_map_last {A B : Type} (f : A -> B) (a : A) (l : list A) :
  exists ys, rev (map f (a :: l)) = f (last (a :: l) a) :: ys.
Proof.
  rewrite <- map_rev. destruct (rev (a :: l)) as [|x xs] eqn:E.
  - apply (f_equal (@length A)) in E. rewrite length_rev in E. discriminate.
  - exists (map f xs). cbn [map]. f_equal. f_equal. symmetry. eapply rev_cons_last. exact E.
Qed.

Lemma last_cons_default {A : Type} (a : A) (l : list A) (d d' : A) :
  last (a :: l) d = last (a :: l) d'.
Proof.
  revert a; induction l as [|b l IH]; intros a; [reflexivity|].
  change (last (b :: l) d = last (b :: l) d'). apply IH.
Qed.

Lemma zipWith_removelast {A B C : Type} (f : A -> B -> C) (l : list A) (b : B) (m : list B) :
  length m = length l -> zipWith f l (removelast (b :: m)) = zipWith f l (b :: m).
Proof.
  revert b m; induction l as [|a l IH]; intros b m Hl; [reflexivity|].
  destruct m as [|b' m]; [discriminate|]. simpl in Hl.
  change (removelast (b :: b' :: m)) with (b :: removelast (b' :: m)). simpl.
  f_equal. apply IH. lia.
Qed.

Lemma pct_change_cons (c0 : Q) (rest : list Q) :
  map (fillna 0) (pct_change (c0 :: rest)) =
    Fin 0 :: map (fillna 0)
      (zipWith (fun x p => fsub (fdiv (Fin x) p) (Fin 1)) rest (Fin c0 :: map Fin rest)).
Proof.
  unfold pct_change. cbn [map shift1 zipWith].
  rewrite zipWith_removelast by apply length_map. reflexivity.
Qed.

Lemma bh_returns_telescope (p : Q) (rest : list Q) :
  ~ p == 0 -> Forall (fun x => ~ x == 0) rest ->
  exists rs,
    map (fillna 0)
      (zipWith (fun x p => fsub (fdiv (Fin x) p) (Fin 1)) rest (Fin p :: map Fin rest))
      = map Fin rs /\
    p * compound rs == last (p :: rest) p.
Proof.
  revert p; induction rest as [|b rest IH]; intros p Hp Hl.
  - exists []. split; [reflexivity|]. unfold compound. simpl. ring.
  - inversion Hl as [|b' l' Hb Hl']; subst.
    destruct (IH b Hb Hl') as [rs [Ers Hrs]].
    exists (b / p + -1 :: rs). split.
    + cbn [map zipWith]. rewrite Ers. simpl. unfold qdiv.
      destruct (Qeq_bool p 0) eqn:E; [qbool; contradiction | reflexivity].
    + change (last (p :: b :: rest) p) with (last (b :: rest) p).
      rewrite (last_cons_default b rest p b), <- Hrs.
      unfold compound. cbn [map fold_right]. field. exact Hp.
Qed.

Lemma fins_map_fin (l : list Q) : fins (map Fin l) = Some l.
Proof. induction l as [|q l IH]; simpl; [reflexivity | rewrite IH; reflexivity]. Qed.

Lemma fcummax_from_fin (m : Q) (l : list Q) :
  fcummax_from (Fin m) (map Fin l) = map Fin (cummax_from m l).
Proof.
  revert m; induction l as [|v l IH]; intros m; simpl; [reflexivity|].
  f_equal. apply IH.
Qed.

Lemma fdrawdown_fin (l : list Q) : fdrawdown (map Fin l) = drawdown l.
Proof.
  unfold fdrawdown, drawdown.
  assert (Hc : fcummax (map Fin l) = map Fin (cummax l)).
  { destruct l as [|v l]; [reflexivity|].
    unfold fcummax. cbn [map fcummax_from]. change (fmax2 NaN (Fin v)) with (Fin v).
    rewrite fcummax_from_fin. reflexivity. }
  rewrite Hc. generalize (cummax l). clear Hc.
  induction l as [|v l IH]; intros ms; [reflexivity|].
  destruct ms as [|m ms]; [reflexivity|]. simpl. f_equal. apply IH.
Qed.

(** Two floats that are finite and equal as rationals. *)
Definition fl_qeq (x y : fl) : Prop := exists a b, x = Fin a /\ y = Fin b /\ a == b.

Lemma drawdown_entry_scale (k v m v' m' : Q) :
  0 < k -> 0 < m -> v' == k * v -> m' == k * m ->
  fl_qeq (fdiv (Fin (v' - m')) (Fin m')) (fdiv (Fin (v - m)) (Fin m)).
Proof.
  intros Hk Hm Hv Hm'. simpl. unfold qdiv.
  destruct (Qeq_bool m 0) eqn:E; [qbool; lra|].
  destruct (Qeq_bool m' 0) eqn:E'; [qbool; nra|].
  eexists; eexists; split; [reflexivity|]. split; [reflexivity|].
  rewrite Hv, Hm'. field. split; lra.
Qed.

Lemma drawdown_from_scale (k : Q) (l' l : list Q) (m' m : Q) :
  0 < k -> 0 < m -> m' == k * m -> Forall (fun v => 0 < v) l ->
  Forall2 (fun a b => a == k * b) l' l ->
  Forall2 fl_qeq
    (zipWith (fun v m => fdiv (Fin (v - m)) (Fin m)) l' (cummax_from m' l'))
    (zipWith (fun v m => fdiv (Fin (v - m)) (Fin m)) l (cummax_from m l)).
Proof.
  intros Hk. revert l m' m.
  induction l' as [|v' l' IH]; intros l m' m Hm Hm' Hpos H2;
    inversion H2 as [|a b la lb Hv H2']; subst; simpl; [constructor|].
  inversion Hpos as [|v'' l'' Hv0 Hpos']; subst.
  assert (HM : qmax m' v' == k * qmax m b /\ 0 < qmax m b).
  { unfold qmax.
    destruct (Qle_bool m b) eqn:E; destruct (Qle_bool m' v') eqn:E'; qbool;
      split; first [exact Hv | exact Hm' | lra | nra]. }
  destruct HM as [HM HM0]. constructor.
  - apply (drawdown_entry_scale k); assumption.
  - apply IH; assumption.
Qed.

Lemma drawdown_scale (k : Q) (l' l : list Q) :
  0 < k -> Forall (fun v => 0 < v) l -> Forall2 (fun a b => a == k * b) l' l ->
  Forall2 fl_qeq (drawdown l') (drawdown l).
Proof.
  intros Hk Hpos H2. destruct H2 as [|v' v l' l Hv H2]; [constructor|].
  inversion Hpos as [|v0 l0 Hv0 Hpos']; subst.
  unfold drawdown. cbn [cummax zipWith]. constructor.
  - apply (drawdown_entry_scale k); assumption.
  - apply (drawdown_from_scale k); assumption.
Qed.

Lemma fold_fmin2_qeq (xs ys : list fl) (x y : fl) :
  Forall2 fl_qeq xs ys -> fl_qeq x y ->
  fl_qeq (fold_left fmin2 xs x) (fold_left fmin2 ys y).
Proof.
  intros H2. revert x y. induction H2 as [|x' y' xs ys Hxy H2 IH]; intros x y Hx;
    simpl; [exact Hx|].
  apply IH. destruct Hx as [a [b [-> [-> Hab]]]], Hxy as [a' [b' [-> [-> Hab']]]].
  simpl. destruct (Qle_bool a a') eqn:E; destruct (Qle_bool b b') eqn:E'; qbool;
    eexists; eexists; (split; [reflexivity | split; [reflexivity | ]]);
    first [exact Hab | exact Hab' | lra].
Qed.

Lemma Forall2_fl_qeq_fin (xs ys : list fl) :
  Forall2 fl_qeq xs ys ->
  Forall (fun x => exists q, x = Fin q) xs /\ Forall (fun y => exists q, y = Fin q) ys.
Proof.
  induction 1 as [|x y xs ys [a [b [-> [-> _]]]] _ [IH1 IH2]];
    split; constructor; eauto.
Qed.

Lemma series_min_qeq (xs ys : list fl) :
  Forall2 fl_qeq xs ys -> xs <> [] -> fl_qeq (series_min xs) (series_min ys).
Proof.
  intros H2 Hne. destruct (Forall2_fl_qeq_fin xs ys H2) as [Hx Hy].
  unfold series_min. rewrite (filter_not_nan_fin xs Hx), (filter_not_nan_fin ys Hy).
  destruct H2 as [|x y xs ys Hxy H2]; [contradiction|].
  apply fold_fmin2_qeq; assumption.
Qed.

Lemma series_min_drawdown_range (l : list Q) :
  l <> [] -> Forall (fun v => 0 < v) l -> in_drawdown_range (series_min (drawdown l)).
Proof.
  intros Hne Hpos. destruct l as [|v l]; [contradiction|].
  inversion Hpos as [|v' l' Hv Hl]; subst.
  change (drawdown (v :: l)) with
    (fdiv (Fin (v - v)) (Fin v) :: zipWith (fun v m => fdiv (Fin (v - m)) (Fin m)) l (cummax_from v l)).
  unfold series_min.
  assert (H0 : in_drawdown_range (fdiv (Fin (v - v)) (Fin v)))
    by (apply drawdown_value_range; lra).
  assert (Hr : Forall in_drawdown_range
                 (zipWith (fun v m => fdiv (Fin (v - m)) (Fin m)) l (cummax_from v l)))
    by (apply drawdown_from_range; assumption).
  rewrite filter_not_nan_fin.
  - apply fold_fmin2_range; assumption.
  - constructor; [destruct H0 as [q [-> _]]; eauto|].
    eapply Forall_impl; [|exact Hr]. intros x [q [-> _]]. eauto.
Qed.

(** With a nonzero first close and a nonzero capital, the buy-and-hold
    portfolio starts at the capital, ends at the capital scaled by the last
    close over the first, and its total return is that ratio minus one,
    whatever the capital. *)
Theorem buy_and_hold_total_return (c0 : Q) (rest : list Q) (initial_capital : Q)
  (H0 : ~ c0 == 0) (Hc : ~ initial_capital == 0) :
  exists b v0 q,
    buy_and_hold (c0 :: rest) initial_capital = Some b /\
    hd_error (bh_portfolio_values b) = Some (Fin v0) /\ v0 == initial_capital /\
    bh_final_portfolio_value b =
      Fin (initial_capital * (last (c0 :: rest) c0 / c0)) /\
    bh_total_return b = Fin q /\ q == last (c0 :: rest) c0 / c0 - 1.
Proof.
  unfold buy_and_hold. rewrite (bh_values_fin _ _ _ H0), map_map.
  destruct (rev_map_last (fun x => Fin (initial_capital * (x / c0))) c0 rest) as [ys Er].
  rewrite Er.
  eexists; exists (initial_capital * (c0 / c0)),
    (initial_capital * (last (c0 :: rest) c0 / c0) / initial_capital + -1).
  split; [reflexivity|]. cbn [bh_portfolio_values bh_final_portfolio_value bh_total_return].
  split; [reflexivity|]. split; [field; exact H0|].
  split; [reflexivity|]. split.
  - simpl. unfold qdiv.
    destruct (Qeq_bool initial_capital 0) eqn:E; [qbool; contradiction | reflexivity].
  - field. split; assumption.
Qed.

Lemma buy_and_hold_total_return_witness :
  exists b v0 q,
    buy_and_hold [100; 120; 90; 110] 1000 = Some b /\
    hd_error (bh_portfolio_values b) = Some (Fin v0) /\ v0 == 1000 /\
    bh_final_portfolio_value b = Fin (1000 * (110 / 100)) /\
    bh_total_return b = Fin q /\ q == 110 / 100 - 1.
Proof.
  apply (buy_and_hold_total_return 100 [120; 90; 110] 1000);
    intro H; apply Qeq_bool_iff in H; discriminate.
Defined.

(** When no close is zero, the buy-and-hold daily returns are finite: a 0
    on the first day (the NaN of [pct_change] filled with 0), then returns
    whose compounded growth carries the first close to the last. The total
    return is that compounded growth minus one, and the volatility and
    Sharpe ratio are those of these finite returns. *)
Theorem buy_and_hold_daily_returns (c0 : Q) (rest : list Q) (initial_capital : Q)
  (Hnz : Forall (fun x => ~ x == 0) (c0 :: rest)) (Hc : ~ initial_capital == 0) :
  exists b rs q,
    buy_and_hold (c0 :: rest) initial_capital = Some b /\
    bh_daily_returns b = map Fin (0 :: rs) /\
    c0 * compound rs == last (c0 :: rest) c0 /\
    bh_total_return b = Fin q /\ q == compound (0 :: rs) - 1 /\
    bh_volatility b = volatility (0 :: rs) /\ bh_sharpe_ratio b = sharpe_ratio (0 :: rs).
Proof.
  inversion Hnz as [|c0' rest' H0 Hrest]; subst.
  destruct (bh_returns_telescope c0 rest H0 Hrest) as [rs [Ers Hrs]].
  unfold buy_and_hold. rewrite (bh_values_fin _ _ _ H0), map_map.
  destruct (rev_map_last (fun x => Fin (initial_capital * (x / c0))) c0 rest) as [ys Er].
  rewrite Er, pct_change_cons, Ers.
  eexists; exists rs,
    (initial_capital * (last (c0 :: rest) c0 / c0) / initial_capital + -1).
  split; [reflexivity|].
  cbn [bh_daily_returns bh_total_return bh_volatility bh_sharpe_ratio].
  change (Fin 0 :: map Fin rs) with (map Fin (0 :: rs)).
  split; [reflexivity|]. split; [exact Hrs|]. split.
  - simpl. unfold qdiv.
    destruct (Qeq_bool initial_capital 0) eqn:E; [qbool; contradiction | reflexivity].
  - split.
    + rewrite <- Hrs. unfold compound. cbn [map fold_right]. field. split; assumption.
    + unfold fvolatility, fsharpe_ratio. rewrite fins_map_fin. split; reflexivity.
Qed.

Lemma buy_and_hold_daily_returns_witness :
  exists b rs q,
    buy_and_hold [100; 120; 90; 110] 1000 = Some b /\
    bh_daily_returns b = map Fin (0 :: rs) /\
    100 * compound rs == last [100; 120; 90; 110] 100 /\
    bh_total_return b = Fin q /\ q == compound (0 :: rs) - 1 /\
    bh_volatility b = volatility (0 :: rs) /\ bh_sharpe_ratio b = sharpe_ratio (0 :: rs).
Proof.
  apply (buy_and_hold_daily_returns 100 [120; 90; 110] 1000).
  - repeat constructor; intro H; apply Qeq_bool_iff in H; discriminate.
  - intro H; apply Qeq_bool_iff in H; discriminate.
Defined.

Lemma Forall2_scale (c c0 : Q) (l : list Q) :
  ~ c0 == 0 -> Forall2 (fun a b => a == c / c0 * b) (map (fun x => c * (x / c0)) l) l.
Proof.
  intros H0. induction l as [|x l IH]; simpl; constructor; [field; exact H0 | exact IH].
Qed.

(** With a positive capital and positive closes, the buy-and-hold maximum
    drawdown is finite, in (-1, 0], and equal to the maximum drawdown of the
    closes themselves: it does not depend on the capital. *)
Theorem buy_and_hold_max_drawdown (c0 : Q) (rest : list Q) (initial_capital : Q)
  (Hc : 0 < initial_capital) (Hpos : Forall (fun x => 0 < x) (c0 :: rest)) :
  exists b q q',
    buy_and_hold (c0 :: rest) initial_capital = Some b /\
    bh_max_drawdown b = Fin q /\ series_min (drawdown (c0 :: rest)) = Fin q' /\
    q == q' /\ -1 < q <= 0.
Proof.
  assert (Hc0 : 0 < c0) by (inversion Hpos; assumption).
  assert (H0 : ~ c0 == 0) by (intro E; rewrite E in Hc0; discriminate).
  unfold buy_and_hold. rewrite (bh_values_fin _ _ _ H0).
  destruct (rev_map_last Fin (c0 * 1 * 1) (map (fun x => initial_capital * (x / c0)) rest))
    as [ys Er].
  destruct (rev (map Fin (map (fun x => initial_capital * (x / c0)) (c0 :: rest))))
    as [|final zs] eqn:Er'.
  { apply (f_equal (@length fl)) in Er'. rewrite length_rev in Er'. discriminate. }
  cbn [bh_max_drawdown]. rewrite fdrawdown_fin.
  assert (Hk : 0 < initial_capital / c0) by (apply Qlt_shift_div_l; lra).
  assert (Hq := series_min_qeq _ _
                  (drawdown_scale _ _ _ Hk Hpos (Forall2_scale initial_capital c0 _ H0))
                  ltac:(discriminate)).
  destruct Hq as [a [b [Ea [Eb Hab]]]].
  destruct (series_min_drawdown_range (c0 :: rest) ltac:(discriminate) Hpos)
    as [q' [Eq' Hq']].
  rewrite Eb in Eq'. injection Eq' as <-.
  eexists; exists a, b. rewrite Ea, Eb. repeat split; try reflexivity; try exact Hab; lra.
Qed.

Lemma buy_and_hold_max_drawdown_witness :
  exists b q q',
    buy_and_hold [100; 120; 90; 110] 1000 = Some b /\
    bh_max_drawdown b = Fin q /\ series_min (drawdown [100; 120; 90; 110]) = Fin q' /\
    q == q' /\ -1 < q <= 0.
Proof.
  apply (buy_and_hold_max_drawdown 100 [120; 90; 110] 1000).
  - reflexivity.
  - repeat constructor.
Defined.

(** With a zero first close and a positive capital, the buy-and-hold values
    are divisions by zero: the final value and the total return are +inf
    when the last close is positive, -inf when it is negative, and NaN when
    it is zero. *)
Theorem buy_and_hold_zero_first_close (c0 : Q) (rest : list Q) (initial_capital : Q)
  (H0 : c0 == 0) (Hc : 0 < initial_capital) :
  exists b,
    buy_and_hold (c0 :: rest) initial_capital = Some b /\
    (0 < last (c0 :: rest) c0 ->
       bh_final_portfolio_value b = PInf /\ bh_total_return b = PInf) /\
    (last (c0 :: rest) c0 < 0 ->
       bh_final_portfolio_value b = NInf /\ bh_total_return b = NInf) /\
    (last (c0 :: rest) c0 == 0 ->
       bh_final_portfolio_value b = NaN /\ bh_total_return b = NaN).
Proof.
  unfold buy_and_hold.
  destruct (rev_map_last (fun x => fmul (Fin initial_capital) (fdiv (Fin x) (Fin c0))) c0 rest)
    as [ys Er].
  rewrite Er. eexists. split; [reflexivity|].
  cbn [bh_final_portfolio_value bh_total_return].
  set (L := last (c0 :: rest) c0).
  assert (Ez : Qeq_bool c0 0 = true) by (apply Qeq_bool_iff; exact H0).
  assert (Ec : qlt 0 initial_capital = true) by (apply qlt_true; exact Hc).
  assert (Ec' : qlt initial_capital 0 = false) by (apply qlt_false; lra).
  simpl. unfold qdiv. rewrite Ez.
  split; [|split]; intros HL.
  - assert (E1 : qlt 0 L = true) by (apply qlt_true; exact HL).
    rewrite E1. simpl; rewrite ?Ec, ?Ec'; simpl; rewrite ?Ec, ?Ec'; split; reflexivity.
  - assert (E1 : qlt 0 L = false) by (apply qlt_false; lra).
    assert (E2 : qlt L 0 = true) by (apply qlt_true; exact HL).
    rewrite E1, E2. simpl; rewrite ?Ec, ?Ec'; simpl; rewrite ?Ec, ?Ec'; split; reflexivity.
  - assert (E1 : qlt 0 L = false) by (apply qlt_false; lra).
    assert (E2 : qlt L 0 = false) by (apply qlt_false; lra).
    rewrite E1, E2. split; reflexivity.
Qed.

Lemma buy_and_hold_zero_first_close_witness :
  exists b,
    buy_and_hold [0; 120; 50] 1000 = Some b /\
    (0 < last [0; 120; 50] 0 ->
       bh_final_portfolio_value b = PInf /\ bh_total_return b = PInf) /\
    (last [0; 120; 50] 0 < 0 ->
       bh_final_portfolio_value b = NInf /\ bh_total_return b = NInf) /\
    (last [0; 120; 50] 0 == 0 ->
       bh_final_portfolio_value b = NaN /\ bh_total_return b = NaN).
Proof.
  apply (buy_and_hold_zero_first_close 0 [120; 50] 1000); reflexivity.
Defined.

Lemma fins_pinf (xs : list fl) : In PInf xs -> fins xs = None.
Proof.
  induction xs as [|x xs IH]; intros H; [destruct H|].
  destruct H as [E | H]; [subst x; reflexivity|].
  destruct x; simpl; try reflexivity. rewrite (IH H). reflexivity.
Qed.

Lemma zipWith_consecutive_in (g : Q -> fl -> fl) (u v : list Q) (a b p : Q) (l : list Q) :
  p :: l = u ++ a :: b :: v -> In (g b (Fin a)) (zipWith g l (Fin p :: map Fin l)).
Proof.
  revert p l; induction u as [|w u IH]; intros p l E.
  - injection E as -> ->. left. reflexivity.
  - injection E as -> El. destruct l as [|q l]; [destruct u; discriminate|].
    right. apply IH. exact El.
Qed.

(** A zero close followed by a positive one makes that day's buy-and-hold
    return +inf, and then the buy-and-hold volatility and Sharpe ratio are
    NaN. *)
Theorem buy_and_hold_zero_then_positive (pre post : list Q) (z x initial_capital : Q)
  (Hz : z == 0) (Hx : 0 < x) :
  exists b,
    buy_and_hold (pre ++ z :: x :: post) initial_capital = Some b /\
    In PInf (bh_daily_returns b) /\
    bh_volatility b = RNaN /\ bh_sharpe_ratio b = RNaN.
Proof.
  remember (pre ++ z :: x :: post) as l eqn:El.
  destruct l as [|c0 rest]; [destruct pre; discriminate|].
  assert (HIn : In PInf (map (fillna 0) (pct_change (c0 :: rest)))).
  { rewrite pct_change_cons. right. apply in_map_iff.
    exists (fsub (fdiv (Fin x) (Fin z)) (Fin 1)). split.
    - simpl. unfold qdiv.
      replace (Qeq_bool z 0) with true by (symmetry; apply Qeq_bool_iff; exact Hz).
      replace (qlt 0 x) with true by (symmetry; apply qlt_true; exact Hx).
      reflexivity.
    - apply (zipWith_consecutive_in (fun x p => fsub (fdiv (Fin x) p) (Fin 1)) pre post).
      exact El. }
  unfold buy_and_hold.
  destruct (rev_map_last (fun x => fmul (Fin initial_capital) (fdiv (Fin x) (Fin c0))) c0 rest)
    as [ys Er].
  rewrite Er. eexists. split; [reflexivity|].
  cbn [bh_daily_returns bh_volatility bh_sharpe_ratio].
  unfold fvolatility, fsharpe_ratio. rewrite (fins_pinf _ HIn).
  split; [exact HIn | split; reflexivity].
Qed.

Lemma buy_and_hold_zero_then_positive_witness :
  exists b,
    buy_and_hold ([100; 50] ++ 0 :: 20 :: [30]) 1000 = Some b /\
    In PInf (bh_daily_returns b) /\
    bh_volatility b = RNaN /\ bh_sharpe_ratio b = RNaN.
Proof.
  apply (buy_and_hold_zero_then_positive [100; 50] [30] 0 20 1000); reflexivity.
Defined.

(** ** Fee sensitivity with a single executed entry (claim C8) *)

Lemma entries_snoc (l : list Z) (z : Z) :
  entries (l ++ [z]) = (entries l + if (z =? 1)%Z then 1 else 0)%nat.
Proof.
  unfold entries. rewrite filter_app, length_app. simpl.
  destruct (z =? 1)%Z; reflexivity.
Qed.

Lemma step_growth (f : Q) (s s' : ledger) (r : row) :
  step f s r = Some s' ->
  (entries (trades s) <= entries (trades s') /\
   length (positions s') <= S (length (positions s)))%nat.
Proof.
  intros H. destruct (step_trades _ _ _ _ H) as [tr [Et _]].
  destruct (step_inv _ _ _ _ H) as (_ & _ & _ & _ & B).
  rewrite Et, entries_snoc. split; [lia|].
  destruct B as [(_ & _ & _ & _ & _ & _ & _ & _ & Ep)
               |[(_ & _ & _ & _ & _ & _ & _ & _ & Ep)
               |[(_ & _ & _ & _ & _ & _ & Ep) | (_ & _ & _ & _ & _ & Ep)]]];
    rewrite Ep; rewrite ?length_app; simpl; lia.
Qed.

Lemma loop_growth (f : Q) (rows : list row) (s s' : ledger) :
  bt_loop f s rows = Some s' ->
  (entries (trades s) <= entries (trades s') /\
   length (positions s') <= length (positions s) + length rows)%nat.
Proof.
  revert s; induction rows as [|r rows IH]; intros s H; simpl in H.
  - injection H as <-. simpl. lia.
  - destruct (step f s r) as [s1|] eqn:E; [|discriminate].
    destruct (step_growth _ _ _ _ E), (IH s1 H). simpl. lia.
Qed.

(** A Buy signal while flat either records a buy or, when no whole share
    is affordable, appends no position. *)
Lemma step_flat_buy (f : Q) (s s' : ledger) (r : row) :
  step f s r = Some s' -> signal r = 1%Z -> holdings s = 0%Z ->
  entries (trades s') = S (entries (trades s)) \/
  length (positions s') = length (positions s).
Proof.
  intros H Hs Hh. destruct (step_trades _ _ _ _ H) as [tr [Et Htr]].
  destruct (step_inv _ _ _ _ H) as (_ & _ & _ & _ & B).
  destruct B as [(_ & _ & n & _ & Hn & _ & Hh' & _)
               |[(_ & _ & _ & _ & _ & _ & _ & _ & Ep)
               |[(Nb & _) | (Nb & _)]]].
  - left. rewrite Et, entries_snoc.
    destruct Htr as [(-> & _) | [(_ & Hpos & _) | (_ & E)]]; [simpl; lia | lia | lia].
  - right. rewrite Ep. reflexivity.
  - exfalso. exact (Nb (conj Hs Hh)).
  - exfalso. exact (Nb (conj Hs Hh)).
Qed.

(** After the entry: as long as the zero-fee run records no further buy
    and appends a position on every row, the relation is kept. *)
Lemma loop_after_entry_rel (f : Q) (rows : list row) (s0 sf s0' sf' : ledger) :
  0 <= f -> Forall (fun r => 0 <= close r) rows -> fee_rel s0 sf ->
  bt_loop 0 s0 rows = Some s0' -> bt_loop f sf rows = Some sf' ->
  (entries (trades s0') <= entries (trades s0))%nat ->
  (length (positions s0) + length rows <= length (positions s0'))%nat ->
  fee_rel s0' sf'.
Proof.
  revert s0 sf; induction rows as [|r rows IH];
    intros s0 sf Hf Hp HR H0 Hf' He Hl; simpl in H0, Hf'.
  - injection H0 as <-. injection Hf' as <-. exact HR.
  - inversion Hp as [|r' rows' Hr Hrows]; subst.
    destruct (step 0 s0 r) as [s1|] eqn:E0; [|discriminate].
    destruct (step f sf r) as [t1|] eqn:E1; [|discriminate].
    destruct (step_growth _ _ _ _ E0) as [G1 G2].
    destruct (loop_growth _ _ _ _ H0) as [G3 G4]. simpl in Hl.
    assert (Hs : ~ (signal r = 1%Z /\ holdings s0 = 0%Z)).
    { intros [Es Eh]. destruct (step_flat_buy _ _ _ _ E0 Es Eh); lia. }
    apply (IH s1 t1 Hf Hrows (step_hold_rel f s0 sf s1 t1 r Hf Hr Hs HR E0 E1) H0 Hf');
      lia.
Qed.

(** Before the entry both runs are the same; the first executed buy puts
    them in [fee_rel]. *)
Lemma loop_before_entry_rel (f : Q) (rows : list row) (s s0' sf' : ledger) :
  0 <= f -> Forall (fun r => 0 <= close r) rows -> holdings s = 0%Z ->
  bt_loop 0 s rows = Some s0' -> bt_loop f s rows = Some sf' ->
  (entries (trades s0') <= S (entries (trades s)))%nat ->
  (length (positions s) + length rows <= length (positions s0'))%nat ->
  fee_rel s0' sf'.
Proof.
  revert s; induction rows as [|r rows IH]; intros s Hf Hp Hh H0 Hf' He Hl;
    simpl in H0, Hf'.
  - injection H0 as <-. injection Hf' as <-. apply fee_rel_refl. lia.
  - inversion Hp as [|r' rows' Hr Hrows]; subst.
    destruct (step 0 s r) as [s1|] eqn:E0; [|discriminate].
    destruct (step_growth _ _ _ _ E0) as [G1 G2].
    destruct (loop_growth _ _ _ _ H0) as [G3 G4]. simpl in Hl.
    destruct (Z.eq_dec (signal r) 1) as [Es|Es].
    + destruct (step f s r) as [t1|] eqn:E1; [|discriminate].
      destruct (step_flat_buy _ _ _ _ E0 Es Hh) as [Ee|Ee]; [|lia].
      apply (loop_after_entry_rel f rows s1 t1 s0' sf' Hf Hrows
               (step_buy_rel f s s1 t1 r Hf Hr Hh Es E0 E1) H0 Hf'); lia.
    + rewrite (step_flat_nonbuy f s r Hh Es), E0 in Hf'.
      destruct (step_inv _ _ _ _ E0) as (_ & _ & _ & _ & B).
      assert (Hh1 : holdings s1 = 0%Z).
      { destruct B as [(E & _) | [(E & _) | [(_ & _ & Hpos & _) | (_ & _ & _ & Hh1 & _)]]];
          [contradiction | contradiction | lia | rewrite Hh1; exact Hh]. }
      apply (IH s1 Hf Hrows Hh1 H0 Hf'); lia.
Qed.

(** C8, as the code has it: when the zero-fee run executes at most one
    buy (its [Trades] column holds at most one 1; Buy signals that arrive
    while holding are ignored and do not count), a run with fee rate
    [f >= 0] ends at or below the zero-fee run. With two executed entries
    this fails (see the counterexample above): the fee run's lower cash
    buys fewer whole shares before a loss. *)
Theorem fee_final_value_single_entry (rows : list row) (initial_capital f : Q)
  (r0 rf : bt_result) (Hf : 0 <= f) (Hp : Forall (fun r => 0 <= close r) rows)
  (H0 : backtest_strategy rows initial_capital 0 = Some r0)
  (He : (entries (res_trades r0) <= 1)%nat)
  (Hf' : backtest_strategy rows initial_capital f = Some rf) :
  last (res_portfolio_value rf) 0 <= last (res_portfolio_value r0) 0.
Proof.
  destruct (backtest_strategy_some _ _ _ _ H0) as (s0 & L0 & -> & _ & Hl0 & _).
  destruct (backtest_strategy_some _ _ _ _ Hf') as (sf & Lf & -> & _).
  simpl in He |- *.
  destruct (loop_before_entry_rel f rows (init_ledger initial_capital) s0 sf
              Hf Hp eq_refl L0 Lf ltac:(simpl; lia) ltac:(simpl; lia))
    as (_ & _ & _ & Hlast).
  exact Hlast.
Qed.

(** Closes [9; 7; 8; 5; 13; 6] with lookback 2 give the signals buy,
    buy, sell: the second buy arrives while holding and is ignored, so the
    zero-fee run executes one entry. *)
Lemma fee_final_value_single_entry_witness :
  exists r0 rf,
    backtest_strategy (pipeline_rows [9; 7; 8; 5; 13; 6] 2 70 30) 100 0 = Some r0 /\
    (entries (res_trades r0) <= 1)%nat /\
    backtest_strategy (pipeline_rows [9; 7; 8; 5; 13; 6] 2 70 30) 100 (1 # 100) = Some rf /\
    last (res_portfolio_value rf) 0 <= last (res_portfolio_value r0) 0.
Proof.
  case_eq (backtest_strategy (pipeline_rows [9; 7; 8; 5; 13; 6] 2 70 30) 100 0);
    [intros r0 H0 | intros H; vm_compute in H; discriminate].
  case_eq (backtest_strategy (pipeline_rows [9; 7; 8; 5; 13; 6] 2 70 30) 100 (1 # 100));
    [intros rf H1 | intros H; vm_compute in H; discriminate].
  assert (He : (entries (res_trades r0) <= 1)%nat)
    by (pose proof H0 as E; vm_compute in E; injection E as <-; vm_compute; lia).
  exists r0, rf. split; [reflexivity|]. split; [exact He|]. split; [reflexivity|].
  apply (fee_final_value_single_entry (pipeline_rows [9; 7; 8; 5; 13; 6] 2 70 30) 100 (1 # 100)
           r0 rf).
  - apply Qle_bool_iff; reflexivity.
  - vm_compute. repeat apply Forall_cons; try apply Forall_nil; discriminate.
  - exact H0.
  - exact He.
  - exact H1.
Defined.
